(** * The API layer of the knowledge-agent front end ([lib/api.ts])

    A shallow embedding of the response normalizer ([normalizeSource],
    [normalizeSources], [hashString]) and of the transport client
    ([parseError], [askKnowledgeAgent], [listChatSessions],
    [getChatSessionMessages], [webSearch]), together with the fragment of
    the JavaScript run time those functions rest on: strings of UTF-16 code
    units, [String(v)], [JSON.stringify], [trim], [toLowerCase], the
    operators [?.] and [??], and the body of a fetch [Response], which can
    be read once. *)

From Stdlib Require Import ZArith List Bool Lia Ascii String DecimalString.
Import ListNotations.

Open Scope string_scope.
Open Scope list_scope.
Open Scope Z_scope.

(** ** Strings *)

(** A JavaScript string is a sequence of UTF-16 code units
    ([charCodeAt] reads one of them). *)
Definition jsstring : Type := list Z.

(** A literal of the source, one code unit per character. *)
Definition str (s : string) : jsstring :=
  map (fun a => Z.of_N (N_of_ascii a)) (list_ascii_of_string s).

Coercion str : string >-> jsstring.

Fixpoint jsstring_eqb (a b : jsstring) : bool :=
  match a, b with
  | [], [] => true
  | x :: a', y :: b' => (x =? y) && jsstring_eqb a' b'
  | _, _ => false
  end.

Definition isEmpty (s : jsstring) : bool :=
  match s with [] => true | _ :: _ => false end.

(** WhiteSpace and LineTerminator of ECMAScript: what [trim] removes. *)
Definition isWhiteSpace (c : Z) : bool :=
  ((9 <=? c) && (c <=? 13)) || (c =? 32) || (c =? 160) || (c =? 5760)
  || ((8192 <=? c) && (c <=? 8202)) || (c =? 8232) || (c =? 8233)
  || (c =? 8239) || (c =? 8287) || (c =? 12288) || (c =? 65279).

Fixpoint trimStart (s : jsstring) : jsstring :=
  match s with
  | c :: rest => if isWhiteSpace c then trimStart rest else s
  | [] => []
  end.

Definition trimEnd (s : jsstring) : jsstring := rev (trimStart (rev s)).

(** [s.trim()] *)
Definition trim (s : jsstring) : jsstring := trimEnd (trimStart s).

(** No white space at either end. *)
Definition isTrimmed (s : jsstring) : bool :=
  match s with
  | [] => true
  | c :: _ => negb (isWhiteSpace c) && negb (isWhiteSpace (last s 0))
  end.

(** Lower-casing of one code unit.  The table covers Basic Latin and the
    Latin-1 Supplement, and the two code units beyond them whose lower-case
    form contains a Basic Latin letter (U+0130, U+212A); any other code unit
    is left as it is, so the comparison of a lower-cased string with a Basic
    Latin literal comes out as in the engine. *)
Definition lowerUnit (c : Z) : jsstring :=
  if (65 <=? c) && (c <=? 90) then [c + 32]
  else if (192 <=? c) && (c <=? 222) && negb (c =? 215) then [c + 32]
  else if c =? 304 then [105; 775]
  else if c =? 8490 then [107]
  else [c].

(** [s.toLowerCase()] *)
Definition toLowerCase (s : jsstring) : jsstring := flat_map lowerUnit s.

(** Decimal digits of a natural number, as [String(n)] prints an integer. *)
Definition decimal (n : N) : jsstring :=
  str (NilZero.string_of_uint (N.to_uint n)).

(** ** Numbers

    A JSON number is a double.  The module only ever prints a number
    ([String(n)], [JSON.stringify(n)]) or tests it for truth, so the number
    type is a parameter with these operations. *)
Class JsNumber (number : Type) : Type := {
(** Number::toString, radix 10 *)
  numberToString : number -> jsstring;
(** false for an infinity ([JSON.parse("1e999")]) *)
  numberIsFinite : number -> bool;
(** ToBoolean: false for +0 and -0 *)
  numberIsTruthy : number -> bool
}.

(** Integers as numbers, printed in decimal: this is Number::toString for
    the integers of magnitude below 10^21 (beyond that the engine prints an
    exponent), and the instance is used on such integers only. *)
#[export] Instance ZNumber : JsNumber Z := {
  numberToString z :=
    if z <? 0 then str "-" ++ decimal (Z.abs_N z) else decimal (Z.abs_N z);
  numberIsFinite _ := true;
  numberIsTruthy z := negb (z =? 0)
}.

(** ** Values *)

(** What [JSON.parse] builds.  The properties of an object are listed in
    the order the engine enumerates them, each name once. *)
Unset Elimination Schemes.
Inductive Json (number : Type) : Type :=
| JNull
| JBool (b : bool)
| JNum (n : number)
| JStr (s : jsstring)
| JArr (items : list (Json number))
| JObj (props : list (jsstring * Json number)).
Set Elimination Schemes.

Arguments JNull {number}.
Arguments JBool {number} b.
Arguments JNum {number} n.
Arguments JStr {number} s.
Arguments JArr {number} items.
Arguments JObj {number} props.

(** ** Completions: a value, or a thrown exception *)

Inductive JsError : Type :=
| TypeError
| SyntaxError
| Error (message : jsstring).

Inductive Completion (A : Type) : Type :=
| Return (a : A)
| Throw (e : JsError).

Arguments Return {A} a.
Arguments Throw {A} e.

Definition bind {A B} (m : Completion A) (k : A -> Completion B) : Completion B :=
  match m with
  | Return a => k a
  | Throw e => Throw e
  end.

Notation "x <- m ;; k" := (bind m (fun x => k))
  (at level 61, m at next level, right associativity).

Section MapM.
Context {A B : Type} (f : A -> Completion B).

(** [xs.map(f)] for an [f] that may throw: left to right, stopping at the
    first exception. *)
Fixpoint mapM (xs : list A) : Completion (list B) :=
    match xs with
    | [] => Return []
    | x :: rest => y <- f x ;; ys <- mapM rest ;; Return (y :: ys)
    end.
End MapM.

(** ** The entities of the module (its exported interfaces) *)

Inductive AccessLevel : Type := public | internal.

Inductive ChatRole : Type := user | assistant.

Module Source.
(** [rest] holds the properties spread from the raw value ([...s]) that
    the seven normalized ones do not overwrite. *)
Record t (number : Type) : Type := make {
    id : jsstring;
    title : jsstring;
    section : jsstring;
    source : jsstring;
    accessLevel : AccessLevel;
    snippet : jsstring;
    fullText : jsstring;
    rest : list (jsstring * Json number)
  }.
Arguments make {number}.
Arguments id {number}.
Arguments title {number}.
Arguments section {number}.
Arguments source {number}.
Arguments accessLevel {number}.
Arguments snippet {number}.
Arguments fullText {number}.
Arguments rest {number}.
End Source.

Module ChatResponse.
Record t (number : Type) : Type := make {
    answer : jsstring;
    sources : list (Source.t number);
    follow_up_questions : list jsstring;
    chat_session_id : option jsstring;
    chat_session_title : option jsstring
  }.
Arguments make {number}.
Arguments answer {number}.
Arguments sources {number}.
Arguments follow_up_questions {number}.
Arguments chat_session_id {number}.
Arguments chat_session_title {number}.
End ChatResponse.

Module ChatSession.
Record t : Type := make {
    id : jsstring;
    title : jsstring;
    preview : jsstring;
    updated_at : option jsstring
  }.
End ChatSession.

Module ChatMessage.
Record t : Type := make {
    id : jsstring;
    role : ChatRole;
    content : jsstring;
    created_at : option jsstring
  }.
End ChatMessage.

(** ** A fetch [Response]

    The body is given by the text [text()] decodes and by what [JSON.parse]
    makes of that text ([None]: a syntax error); the parser is the
    engine's.  [body = None] is a response without body. *)
Module Response.
Record content (number : Type) : Type := mkContent {
    raw : jsstring;
    parsed : option (Json number)
  }.
Arguments mkContent {number}.
Arguments raw {number}.
Arguments parsed {number}.

Record t (number : Type) : Type := make {
    status : N;
    body : option (content number);
    bodyUsed : bool
  }.
Arguments make {number}.
Arguments status {number}.
Arguments body {number}.
Arguments bodyUsed {number}.
End Response.

(** ** The run time and the module, over any number type *)

Section Api.
Context {number : Type} {numberOps : JsNumber number}.

Abbreviation json := (Json number).
(** A JavaScript value as the module meets it: [None] is [undefined]. *)
Abbreviation value := (option (Json number)).

(** Own-property lookup. *)
Fixpoint lookup (k : jsstring) (ps : list (jsstring * json)) : value :=
  match ps with
  | [] => None
  | (k', v) :: rest => if jsstring_eqb k' k then Some v else lookup k rest
  end.

(** [v?.k]: [undefined] on a nullish [v]; otherwise the property.  Only
    own properties of objects are modelled: no name the module reads
    ([id], [title], [metadata], ...) is inherited from a prototype, an
    array index or [length]. *)
Definition optGet (v : value) (k : jsstring) : value :=
  match v with
  | Some (JObj ps) => lookup k ps
  | _ => None
  end.

Definition isNullish (v : value) : bool :=
  match v with
  | None | Some JNull => true
  | Some _ => false
  end.

(** [a ?? b] *)
Definition coalesce (a b : value) : value :=
  if isNullish a then b else a.

(** [Array.isArray(v)] *)
Definition isArray (v : value) : bool :=
  match v with
  | Some (JArr _) => true
  | _ => false
  end.

(** ToBoolean *)
Definition truthy (v : value) : bool :=
  match v with
  | None | Some JNull => false
  | Some (JBool b) => b
  | Some (JNum n) => numberIsTruthy n
  | Some (JStr s) => negb (isEmpty s)
  | Some (JArr _) | Some (JObj _) => true
  end.

Fixpoint joinWith (sep : jsstring) (parts : list jsstring) : jsstring :=
  match parts with
  | [] => []
  | [x] => x
  | x :: rest => x ++ sep ++ joinWith sep rest
  end.

(** ToString of a parsed value.  An array prints as [join(",")] does, a
    null element as the empty string.  An object goes through
    OrdinaryToPrimitive: [Object.prototype.toString] gives
    ["[object Object]"], unless the object has an own property [toString]:
    a parsed value is never callable, so that property is skipped,
    [valueOf] (own, or [Object.prototype.valueOf], which hands back the
    object) yields no primitive, and the conversion throws a TypeError.
    The engine's limit on recursion (a RangeError on values nested
    thousands of levels deep) is not modelled. *)
Fixpoint ToString (v : json) : Completion jsstring :=
  match v with
  | JNull => Return (str "null")
  | JBool b => Return (if b then str "true" else str "false")
  | JNum n => Return (numberToString n)
  | JStr s => Return s
  | JArr items =>
      parts <- mapM (fun x => match x with
                              | JNull => Return []
                              | _ => ToString x
                              end) items ;;
      Return (joinWith (str ",") parts)
  | JObj props =>
      match lookup (str "toString") props with
      | Some _ => Throw TypeError
      | None => Return (str "[object Object]")
      end
  end.

(** [String(v)] *)
Definition String_ (v : value) : Completion jsstring :=
  match v with
  | None => Return (str "undefined")
  | Some j => ToString j
  end.

(** *** [JSON.stringify] *)

Definition hexDigit (d : Z) : Z := if d <? 10 then 48 + d else 87 + d.

(** The escape [\uXXXX], lower-case hexadecimal. *)
Definition unicodeEscape (c : Z) : jsstring :=
  [92; 117; hexDigit (c / 4096 mod 16); hexDigit (c / 256 mod 16);
   hexDigit (c / 16 mod 16); hexDigit (c mod 16)].

Definition isLeadingSurrogate (c : Z) : bool := (55296 <=? c) && (c <=? 56319).
Definition isTrailingSurrogate (c : Z) : bool := (56320 <=? c) && (c <=? 57343).

(** One code unit that is no surrogate, as QuoteJSONString writes it. *)
Definition quoteUnit (c : Z) : jsstring :=
  if c =? 8 then [92; 98]
  else if c =? 9 then [92; 116]
  else if c =? 10 then [92; 110]
  else if c =? 12 then [92; 102]
  else if c =? 13 then [92; 114]
  else if c =? 34 then [92; 34]
  else if c =? 92 then [92; 92]
  else if c <? 32 then unicodeEscape c
  else [c].

(** The characters of a string between the quotes: a surrogate pair is
    kept, a lone surrogate is escaped. *)
Fixpoint quoteUnits (s : jsstring) : jsstring :=
  match s with
  | [] => []
  | c :: rest =>
      if isLeadingSurrogate c then
        match rest with
        | d :: rest' =>
            if isTrailingSurrogate d then c :: d :: quoteUnits rest'
            else unicodeEscape c ++ quoteUnits rest
        | [] => unicodeEscape c
        end
      else if isTrailingSurrogate c then unicodeEscape c ++ quoteUnits rest
      else quoteUnit c ++ quoteUnits rest
  end.

Definition QuoteJSONString (s : jsstring) : jsstring :=
  [34] ++ quoteUnits s ++ [34].

(** [JSON.stringify(v)] without indentation.  A parsed value holds no
    function, so no [toJSON] is called and no property is left out.  The
    engine's limit on recursion (a RangeError on values nested thousands of
    levels deep) is not modelled. *)
Fixpoint JSON_stringify (v : json) : jsstring :=
  match v with
  | JNull => str "null"
  | JBool b => if b then str "true" else str "false"
  | JNum n => if numberIsFinite n then numberToString n else str "null"
  | JStr s => QuoteJSONString s
  | JArr items =>
      str "[" ++ joinWith (str ",") (map JSON_stringify items) ++ str "]"
  | JObj props =>
      str "{"
      ++ joinWith (str ",")
           (map (fun p => QuoteJSONString (fst p) ++ str ":" ++ JSON_stringify (snd p))
                props)
      ++ str "}"
  end.

(** *** [hashString] *)

(** ToInt32: what [| 0] and the operands of [<<] go through. *)
Definition toInt32 (z : Z) : Z :=
  let m := z mod 4294967296 in
  if m <? 2147483648 then m else m - 4294967296.

(** [h << k] *)
Definition shiftLeft32 (h k : Z) : Z := toInt32 (Z.shiftl (toInt32 h) k).

(** One turn of the loop: [h = (h << 5) - h + input.charCodeAt(i); h |= 0]. *)
Definition hashStep (h c : Z) : Z := toInt32 (shiftLeft32 h 5 - h + c).

Definition hashString (input : jsstring) : Z := fold_left hashStep input 0.

(** The hash as the specification words it: [h = h*31 + charCode], wrapped
    to 32 bits at each step. *)
Definition hash31 (input : jsstring) : Z :=
  fold_left (fun h c => toInt32 (h * 31 + c)) input 0.

(** *** The response normalizer *)

Notation "v ?. k" := (optGet v k) (at level 20, left associativity).
Notation "a ?? b" := (coalesce a b) (at level 55, right associativity).

(** A string literal of the source, as a value. *)
Definition lit (s : string) : value := Some (JStr (str s)).

(** [hashString(JSON.stringify(v))]; [JSON.stringify(undefined)] is
    [undefined], whose [length] cannot be read. *)
Definition hashOfStringified (v : value) : Completion Z :=
  match v with
  | Some j => Return (hashString (JSON_stringify j))
  | None => Throw TypeError
  end.

(** The template [`src-${idx}-${Math.abs(h)}`]. *)
Definition syntheticId (idx : nat) (h : Z) : jsstring :=
  str "src-" ++ decimal (N.of_nat idx) ++ str "-" ++ decimal (Z.abs_N h).

(** The names the normalizer sets after the spread. *)
Definition normalizedNames : list jsstring :=
  [str "id"; str "title"; str "section"; str "source"; str "accessLevel";
   str "snippet"; str "fullText"].

Fixpoint indexed {A} (i : nat) (xs : list A) : list (jsstring * A) :=
  match xs with
  | [] => []
  | x :: rest => (decimal (N.of_nat i), x) :: indexed (S i) rest
  end.

(** The own enumerable properties [{...v}] copies. *)
Definition ownProperties (v : value) : list (jsstring * json) :=
  match v with
  | Some (JObj props) => props
  | Some (JArr items) => indexed 0 items
  | Some (JStr s) => indexed 0 (map (fun c => JStr [c]) s)
  | _ => []
  end.

Definition passThrough (v : value) : list (jsstring * json) :=
  filter (fun p => negb (existsb (jsstring_eqb (fst p)) normalizedNames))
         (ownProperties v).

Definition normalizeSource (s : value) (idx : nat) : Completion (Source.t number) :=
  id0 <- String_ (s ?. "id" ?? lit "") ;;
  id <- (if isEmpty (trim id0)
         then h <- hashOfStringified (s ?? Some (JObj [])) ;;
              Return (syntheticId idx h)
         else Return (trim id0)) ;;
  title0 <- String_ (s ?. "title" ?? s ?. "metadata" ?. "title" ?? lit "Source") ;;
  let title := trim title0 in
  section0 <- String_ (s ?. "section" ?? s ?. "metadata" ?. "section"
                       ?? s ?. "metadata" ?. "heading" ?? lit "") ;;
  let section := trim section0 in
  source0 <- String_ (s ?. "source" ?? s ?. "url" ?? s ?. "metadata" ?. "source"
                      ?? s ?. "metadata" ?. "path" ?? lit "") ;;
  let source := trim source0 in
  alRaw0 <- String_ (s ?. "accessLevel" ?? s ?. "access_level"
                     ?? s ?. "metadata" ?. "accessLevel"
                     ?? s ?. "metadata" ?. "access_level" ?? lit "internal") ;;
  let alRaw := toLowerCase alRaw0 in
  let accessLevel := if jsstring_eqb alRaw "public" then public else internal in
  snippet0 <- String_ (s ?. "snippet" ?? s ?. "metadata" ?. "snippet"
                       ?? s ?. "metadata" ?. "text" ?? lit "") ;;
  let snippet := trim snippet0 in
  fullText0 <- String_ (s ?. "fullText" ?? s ?. "full_text"
                        ?? s ?. "metadata" ?. "fullText"
                        ?? s ?. "metadata" ?. "text" ?? Some (JStr snippet)) ;;
  let fullText := trim fullText0 in
  Return (Source.make id title section source accessLevel snippet fullText
            (passThrough s)).

(** [arr.map((s, i) => normalizeSource(s, i))] *)
Fixpoint normalizeFrom (i : nat) (items : list json)
  : Completion (list (Source.t number)) :=
  match items with
  | [] => Return []
  | s :: rest =>
      x <- normalizeSource (Some s) i ;;
      xs <- normalizeFrom (S i) rest ;;
      Return (x :: xs)
  end.

Definition normalizeSources (arr : value) : Completion (list (Source.t number)) :=
  match arr with
  | Some (JArr items) => normalizeFrom 0 items
  | _ => Return []
  end.

(** *** The transport client

    Each operation is given the [Response] its [fetch] resolved with; the
    request it sends has no part in what it returns. *)

Abbreviation response := (Response.t number).

(** [res.ok]: a status from 200 to 299. *)
Definition ok (res : response) : bool :=
  ((200 <=? Response.status res) && (Response.status res <=? 299))%N.

Definition markUsed (res : response) : response :=
  Response.make (Response.status res) (Response.body res) true.

(** [res.json()]: rejects when the body has been read already; otherwise
    reads the body, which marks it used, and parses what it read. *)
Definition json_ (res : response) : Completion json * response :=
  match Response.body res with
  | None => (Throw SyntaxError, res)
  | Some c =>
      if Response.bodyUsed res then (Throw TypeError, res)
      else match Response.parsed c with
           | Some j => (Return j, markUsed res)
           | None => (Throw SyntaxError, markUsed res)
           end
  end.

(** [res.text()] *)
Definition text_ (res : response) : Completion jsstring * response :=
  match Response.body res with
  | None => (Return [], res)
  | Some c =>
      if Response.bodyUsed res then (Throw TypeError, res)
      else (Return (Response.raw c), markUsed res)
  end.

Definition parseError (res : response) : jsstring * response :=
  match json_ res with
  | (Return j, res1) =>
      match Some j ?. "detail" with
      | Some d =>
          if truthy (Some d)
          then (match d with
                | JStr x => x
                | _ => JSON_stringify d
                end, res1)
          else (JSON_stringify j, res1)
      | None => (JSON_stringify j, res1)
      end
  | (Throw _, res1) =>
      match text_ res1 with
      | (Return t, res2) => (t, res2)
      | (Throw _, res2) =>
          (str "HTTP " ++ decimal (Response.status res), res2)
      end
  end.

(** [throw new Error(await parseError(res))] *)
Definition throwParsed {A} (res : response) : Completion A :=
  Throw (Error (fst (parseError res))).

(** [v ? String(v) : absent] *)
Definition stringIfTruthy (v : value) : Completion (option jsstring) :=
  if truthy v then x <- String_ v ;; Return (Some x) else Return None.

Definition askKnowledgeAgent (res : response) : Completion (ChatResponse.t number) :=
  if negb (ok res) then throwParsed res
  else
    j <- fst (json_ res) ;;
    let data : value := Some j in
    answer <- String_ (data ?. "answer" ?? lit "") ;;
    sources <- normalizeSources (data ?. "sources") ;;
    follow_up_questions <-
      match data ?. "follow_up_questions" with
      | Some (JArr xs) => mapM ToString xs
      | _ =>
          match data ?. "follow_ups" with
          | Some (JArr ys) => mapM ToString ys
          | _ => Return []
          end
      end ;;
    chat_session_id <- stringIfTruthy (data ?. "chat_session_id") ;;
    chat_session_title <- stringIfTruthy (data ?. "chat_session_title") ;;
    Return (ChatResponse.make answer sources follow_up_questions
              chat_session_id chat_session_title).

Definition toChatSession (s : json) : Completion ChatSession.t :=
  id <- String_ (Some s ?. "id" ?? lit "") ;;
  title <- String_ (Some s ?. "title" ?? lit "New chat") ;;
  preview <- String_ (Some s ?. "preview" ?? lit "") ;;
  updated_at <- stringIfTruthy (Some s ?. "updated_at") ;;
  Return (ChatSession.make id title preview updated_at).

Definition listChatSessions (res : response) : Completion (list ChatSession.t) :=
  if negb (ok res) then throwParsed res
  else
    data <- fst (json_ res) ;;
    match data with
    | JArr items => mapM toChatSession items
    | _ => Return []
    end.

(** [v === "assistant"] and the like: a string with these code units. *)
Definition strictEqualsString (v : value) (s : jsstring) : bool :=
  match v with
  | Some (JStr x) => jsstring_eqb x s
  | _ => false
  end.

Definition toChatRole (m : json) : ChatRole :=
  if strictEqualsString (Some m ?. "role") "assistant" then assistant else user.

Definition toChatMessage (m : json) : Completion ChatMessage.t :=
  id <- String_ (Some m ?. "id" ?? lit "") ;;
  let role := toChatRole m in
  content <- String_ (Some m ?. "content" ?? lit "") ;;
  created_at <- stringIfTruthy (Some m ?. "created_at") ;;
  Return (ChatMessage.make id role content created_at).

Definition getChatSessionMessages (res : response) : Completion (list ChatMessage.t) :=
  if negb (ok res) then throwParsed res
  else
    data <- fst (json_ res) ;;
    match data with
    | JArr items => mapM toChatMessage items
    | _ => Return []
    end.

(** The result is handed on as parsed, whatever its shape. *)
Definition webSearch (res : response) : Completion value :=
  if negb (ok res) then throwParsed res
  else
    data <- fst (json_ res) ;;
    Return (if isArray (Some data) then Some data
            else Some data ?. "results" ?? Some (JArr [])).

End Api.

Notation "v ?. k" := (optGet v k) (at level 20, left associativity).
Notation "a ?? b" := (coalesce a b) (at level 55, right associativity).

(** * The rest of [lib/api.ts]: base address, requests, probes *)

(** ** The base address

    [process.env.NEXT_PUBLIC_API_BASE_URL?.trim() || "http://127.0.0.1:8000"];
    [env] is the variable, [None] when it is not set. *)
Definition API_BASE_URL (env : option jsstring) : jsstring :=
  match env with
  | Some v => if isEmpty (trim v) then str "http://127.0.0.1:8000" else trim v
  | None => str "http://127.0.0.1:8000"
  end.

(** ** [encodeURIComponent] *)

Definition isAlphaNumeric (c : Z) : bool :=
  ((48 <=? c) && (c <=? 57)) || ((65 <=? c) && (c <=? 90))
  || ((97 <=? c) && (c <=? 122)).

(** The characters [encodeURIComponent] leaves as they are: letters, digits
    and [- _ . ! ~ * ' ( )]. *)
Definition isUriUnreserved (c : Z) : bool :=
  isAlphaNumeric c
  || existsb (Z.eqb c) [45; 95; 46; 33; 126; 42; 39; 40; 41].

Definition hexUpper (d : Z) : Z := if d <? 10 then 48 + d else 55 + d.

(** [%XX] for one octet. *)
Definition percentOctet (b : Z) : jsstring :=
  [37; hexUpper (b / 16); hexUpper (b mod 16)].

(** The octets of a code point in UTF-8. *)
Definition utf8 (cp : Z) : list Z :=
  if cp <? 128 then [cp]
  else if cp <? 2048 then [192 + cp / 64; 128 + cp mod 64]
  else if cp <? 65536 then
    [224 + cp / 4096; 128 + (cp / 64) mod 64; 128 + cp mod 64]
  else
    [240 + cp / 262144; 128 + (cp / 4096) mod 64; 128 + (cp / 64) mod 64;
     128 + cp mod 64].

(** The code point of a surrogate pair. *)
Definition pairCodePoint (lead trail : Z) : Z :=
  (lead - 55296) * 1024 + (trail - 56320) + 65536.

Definition percentEncode (cp : Z) : jsstring := flat_map percentOctet (utf8 cp).

(** [encodeURIComponent(s)]; [None] stands for the URIError it throws on a
    surrogate without its partner. *)
Fixpoint encodeURIComponent (s : jsstring) : option jsstring :=
  match s with
  | [] => Some []
  | c :: rest =>
      if isUriUnreserved c then option_map (cons c) (encodeURIComponent rest)
      else if isLeadingSurrogate c then
        match rest with
        | d :: rest' =>
            if isTrailingSurrogate d
            then option_map (app (percentEncode (pairCodePoint c d)))
                            (encodeURIComponent rest')
            else None
        | [] => None
        end
      else if isTrailingSurrogate c then None
      else option_map (app (percentEncode c)) (encodeURIComponent rest)
  end.

(** ** The addresses the operations fetch *)

(** [`${API_BASE_URL}/api/chat/sessions/${encodeURIComponent(sessionId)}`] *)
Definition sessionMessagesUrl (base sessionId : jsstring) : option jsstring :=
  option_map (fun e => base ++ str "/api/chat/sessions/" ++ e)
             (encodeURIComponent sessionId).

Inductive Scope : Type := scopeInternal | scopeWeb | scopeHybrid.

Definition scopeName (s : Scope) : jsstring :=
  match s with
  | scopeInternal => str "internal"
  | scopeWeb => str "web"
  | scopeHybrid => str "hybrid"
  end.

Definition roleName (r : ChatRole) : jsstring :=
  match r with
  | user => str "user"
  | assistant => str "assistant"
  end.

Module ChatHistoryMessage.
Record t : Type := make {
  role : ChatRole;
  content : jsstring
}.
End ChatHistoryMessage.

Section Requests.
Context {number : Type} {numberOps : JsNumber number}.

(** The object [askKnowledgeAgent] serializes as the request body.  A
    property whose value is [undefined] is left out by [JSON.stringify]:
    that is [chat_session_id] when [chatSessionId || undefined] is
    [undefined]. *)
Definition chatRequest (question : jsstring) (scope : Scope) (agent : jsstring)
    (strictCitations : bool) (history : list ChatHistoryMessage.t)
    (chatSessionId : option jsstring) : Json number :=
  JObj ([(str "query", JStr question);
         (str "scope", JStr (scopeName scope));
         (str "agent", JStr agent);
         (str "strict_citations", JBool strictCitations);
         (str "history",
          JArr (map (fun m =>
                       JObj [(str "role", JStr (roleName (ChatHistoryMessage.role m)));
                             (str "content", JStr (ChatHistoryMessage.content m))])
                    history))]
        ++ match chatSessionId with
           | Some id => if isEmpty id then [] else [(str "chat_session_id", JStr id)]
           | None => []
           end).

Definition chatRequestBody (question : jsstring) (scope : Scope)
    (agent : jsstring) (strictCitations : bool)
    (history : list ChatHistoryMessage.t) (chatSessionId : option jsstring)
  : jsstring :=
  JSON_stringify
    (chatRequest question scope agent strictCitations history chatSessionId).

(** [testLLM], [testRAG], [testSerper]: the parsed body as it is. *)
Definition testEndpoint (res : Response.t number) : Completion (Json number) :=
  if negb (ok res) then throwParsed res else fst (json_ res).

Definition testLLM := testEndpoint.
Definition testRAG := testEndpoint.
Definition testSerper := testEndpoint.

End Requests.

(** * The callers: the knowledge-agent component and its panels *)

(** ** [isLikelyUrl] (sources panel) *)

(** A character of the pattern under the flag [i]: the letter or its
    upper-case form.  (Without the flag [u] no character outside Basic
    Latin is folded onto a Basic Latin letter.) *)
Definition matchesLetter (lower c : Z) : bool := (c =? lower) || (c =? lower - 32).

(** [:\/\/\S+] at the head of [r]. *)
Definition matchesSlashes (r : jsstring) : bool :=
  match r with
  | a :: b :: c :: d :: _ =>
      (a =? 58) && (b =? 47) && (c =? 47) && negb (isWhiteSpace d)
  | _ => false
  end.

(** [/^https?:\/\/\S+/i.test(s || "")] *)
Definition isLikelyUrl (s : jsstring) : bool :=
  match s with
  | h :: t1 :: t2 :: p :: rest =>
      matchesLetter 104 h && matchesLetter 116 t1 && matchesLetter 116 t2
      && matchesLetter 112 p
      && (match rest with
          | s' :: rest' => matchesLetter 115 s' && matchesSlashes rest'
          | [] => false
          end
          || matchesSlashes rest)
  | _ => false
  end.

(** [a || b] on strings *)
Definition orString (a b : jsstring) : jsstring := if isEmpty a then b else a.

(** ** Documents of the built-in knowledge base *)

Inductive UserRole : Type := admin | employee.

Module Doc.
Record t : Type := make {
  id : Z;
  title : jsstring;
  source : jsstring;
  section : jsstring;
  content : jsstring;
  snippet : jsstring;
  accessLevel : AccessLevel
}.
End Doc.

Definition KNOWLEDGE_BASE : list Doc.t :=
  [Doc.make 1 "Company Underwriting Rules Engine" "engineering/underwriting-system"
     "Architecture"
     "The underwriting rules engine is implemented using a decision tree model with 150+ rules for evaluating borrower creditworthiness..."
     "Decision tree model with 150+ rules for creditworthiness evaluation"
     internal;
   Doc.make 2 "Data Model for Borrower Employment" "design-docs/data-model"
     "Employment Schema"
     "Employment data is structured with historical tracking, salary history, and employment gaps..."
     "Employment data with historical tracking and salary information"
     internal;
   Doc.make 3 "Documentation Service SLAs" "engineering/docs-service"
     "SLA & Failure Modes"
     "Target SLA: 99.9% uptime. Failure modes include network timeouts, parsing errors..."
     "99.9% uptime SLA with documented failure modes"
     internal;
   Doc.make 4 "API Documentation" "docs/api" "REST Endpoints"
     "Public API endpoints for third-party integrations. Base URL: api.company.com/v1..."
     "REST API with authentication and JSON/XML support"
     public;
   Doc.make 5 "Project Guidelines" "docs/guidelines" "Best Practices"
     "Follow coding standards, use meaningful variable names, write unit tests..."
     "Development standards and best practices"
     public].

Definition isPublicDoc (doc : Doc.t) : bool :=
  match Doc.accessLevel doc with public => true | internal => false end.

Definition isInternalDoc (doc : Doc.t) : bool :=
  match Doc.accessLevel doc with internal => true | public => false end.

Definition filterAccessibleDocs (role : UserRole) (scope : Scope)
    (docs : list Doc.t) : list Doc.t :=
  let filtered :=
    match role with
    | admin => docs
    | employee => filter isPublicDoc docs
    end in
  match scope with
  | scopeInternal => filter isInternalDoc filtered
  | scopeWeb => filter isPublicDoc filtered
  | scopeHybrid => filtered
  end.

Fixpoint startsWith (s prefix : jsstring) : bool :=
  match prefix, s with
  | [], _ => true
  | p :: prefix', c :: s' => (c =? p) && startsWith s' prefix'
  | _ :: _, [] => false
  end.

(** [s.includes(part)] *)
Fixpoint includes (s part : jsstring) : bool :=
  startsWith s part
  || match s with
     | [] => false
     | _ :: s' => includes s' part
     end.

Definition docMatches (queryLower : jsstring) (doc : Doc.t) : bool :=
  includes (toLowerCase (Doc.title doc)) queryLower
  || includes (toLowerCase (Doc.content doc)) queryLower
  || includes (toLowerCase (Doc.snippet doc)) queryLower.

(** [xs.slice(0, 3)] is [firstn 3 xs]. *)
Definition performRAG (role : UserRole) (scope : Scope) (query : jsstring)
  : list Doc.t :=
  let queryLower := toLowerCase query in
  let accessibleDocs := filterAccessibleDocs role scope KNOWLEDGE_BASE in
  firstn 3 (filter (docMatches queryLower) accessibleDocs).

(** ** Agent controls: the three handlers passed to [AgentControls] *)

Module Controls.
Record t : Type := make {
  activeAgent : jsstring;
  scope : Scope;
  strictCitations : bool
}.
End Controls.

(** [useState("knowledge")], [useState("hybrid")], [useState(false)] *)
Definition initialControls : Controls.t :=
  Controls.make "knowledge" scopeHybrid false.

Definition onAgentChange (st : Controls.t) (next : jsstring) : Controls.t :=
  if jsstring_eqb next "industry"
  then Controls.make next scopeWeb false
  else Controls.make next (Controls.scope st) (Controls.strictCitations st).

Definition isWebScope (s : Scope) : bool :=
  match s with scopeWeb => true | _ => false end.

Definition onScopeChange (st : Controls.t) (s : Scope) : Controls.t :=
  if jsstring_eqb (Controls.activeAgent st) "industry" && negb (isWebScope s)
  then st
  else Controls.make (Controls.activeAgent st) s (Controls.strictCitations st).

Definition onStrictCitationsChange (st : Controls.t) (v : bool) : Controls.t :=
  if jsstring_eqb (Controls.activeAgent st) "industry"
  then st
  else Controls.make (Controls.activeAgent st) (Controls.scope st) v.

Inductive ControlEvent : Type :=
| AgentChange (next : jsstring)
| ScopeChange (s : Scope)
| StrictCitationsChange (v : bool).

Definition controlStep (st : Controls.t) (e : ControlEvent) : Controls.t :=
  match e with
  | AgentChange next => onAgentChange st next
  | ScopeChange s => onScopeChange st s
  | StrictCitationsChange v => onStrictCitationsChange st v
  end.

(** ** Citations: from the normalized sources to the sources panel *)

Module Citation.
(** The interface types [accessLevel] and [fullText] as strings, but they
    are filled from raw properties of the source, whatever those hold. *)
Record t (number : Type) : Type := make {
  id : jsstring;
  title : jsstring;
  source : jsstring;
  section : jsstring;
  accessLevel : Json number;
  snippet : jsstring;
  fullText : Json number
}.
Arguments make {number}.
Arguments id {number}.
Arguments title {number}.
Arguments source {number}.
Arguments section {number}.
Arguments accessLevel {number}.
Arguments snippet {number}.
Arguments fullText {number}.
End Citation.

Module PanelSource.
Record t : Type := make {
  id : jsstring;
  title : jsstring;
  section : jsstring;
  source : jsstring;
  accessLevel : AccessLevel;
  snippet : jsstring;
  fullText : jsstring
}.
End PanelSource.

Module Message.
Record t (number : Type) : Type := make {
  id : jsstring;
  role : ChatRole;
  content : jsstring;
  citations : option (list (Citation.t number));
  followUpSuggestions : option (list jsstring);
  timestamp : N
}.
Arguments make {number}.
Arguments id {number}.
Arguments role {number}.
Arguments content {number}.
Arguments citations {number}.
Arguments followUpSuggestions {number}.
Arguments timestamp {number}.
End Message.

Module Chat.
(** The part of the component's state that sending a message touches. *)
Record t (number : Type) : Type := make {
  messages : list (Message.t number);
  input : jsstring;
  isLoading : bool;
  currentSources : list (Citation.t number)
}.
Arguments make {number}.
Arguments messages {number}.
Arguments input {number}.
Arguments isLoading {number}.
Arguments currentSources {number}.
End Chat.

Module ChatParams.
(** The argument of [askKnowledgeAgent]. *)
Record t : Type := make {
  question : jsstring;
  scope : Scope;
  agent : jsstring;
  strictCitations : bool;
  history : list ChatHistoryMessage.t
}.
End ChatParams.

Section Component.
Context {number : Type} {numberOps : JsNumber number}.

(** [s.k] on the object [{...s, id, title, ...}] that [normalizeSource]
    returns: one of the seven normalized properties, or a property spread
    from the raw value. *)
Definition sourceGet (s : Source.t number) (k : jsstring) : option (Json number) :=
  if jsstring_eqb k "id" then Some (JStr (Source.id s))
  else if jsstring_eqb k "title" then Some (JStr (Source.title s))
  else if jsstring_eqb k "section" then Some (JStr (Source.section s))
  else if jsstring_eqb k "source" then Some (JStr (Source.source s))
  else if jsstring_eqb k "accessLevel" then
    Some (JStr (match Source.accessLevel s with
                | public => str "public"
                | internal => str "internal"
                end))
  else if jsstring_eqb k "snippet" then Some (JStr (Source.snippet s))
  else if jsstring_eqb k "fullText" then Some (JStr (Source.fullText s))
  else lookup k (Source.rest s).

(** [v ?? d] for a default that is a value of its own. *)
Definition orDefault (v : option (Json number)) (d : Json number) : Json number :=
  match v with
  | None | Some JNull => d
  | Some j => j
  end.

(** One element of [mapBackendSourcesToCitations]: [id], [title], [source],
    [section] and [snippet] are the normalized strings; the access level is
    read from [access_level] and the full text from [full_text]. *)
Definition toCitation (s : Source.t number) : Citation.t number :=
  Citation.make (Source.id s) (Source.title s) (Source.source s)
    (Source.section s)
    (orDefault (sourceGet s "access_level") (JStr "internal"))
    (Source.snippet s)
    (orDefault (sourceGet s "full_text") (JStr "")).

Definition mapBackendSourcesToCitations (sources : list (Source.t number))
  : list (Citation.t number) :=
  map toCitation sources.

(** One element of the panel's [normalized]: [(s?.k || d).toString()] for
    the strings; [toString()] on a truthy raw full text converts as
    [String] does. *)
Definition panelNormalize (s : Citation.t number) : Completion PanelSource.t :=
  let id := orString (Citation.id s) [] in
  let title := orString (Citation.title s) "Source" in
  let section := orString (Citation.section s) [] in
  let source := orString (Citation.source s) [] in
  let accessLevel :=
    if strictEqualsString (Some (Citation.accessLevel s)) "public"
    then public else internal in
  let snippet := orString (Citation.snippet s) [] in
  fullText <- (if truthy (Some (Citation.fullText s))
               then ToString (Citation.fullText s)
               else Return (orString (Citation.snippet s) [])) ;;
  Return (PanelSource.make id title section source accessLevel snippet fullText).

Definition panelNormalized (sources : list (Citation.t number))
  : Completion (list PanelSource.t) :=
  mapM panelNormalize sources.

(** [`${source.id || source.source || "src"}-${idx}`] *)
Definition stableKey (source : PanelSource.t) (idx : nat) : jsstring :=
  orString (PanelSource.id source) (orString (PanelSource.source source) "src")
  ++ str "-" ++ decimal (N.of_nat idx).

Definition openTarget (source : PanelSource.t) : jsstring :=
  if isLikelyUrl (PanelSource.source source) then PanelSource.source source
  else [].

(** ** Sending a message ([handleSendMessage]) *)

(** [xs.slice(-n)] *)
Definition lastN {A} (n : nat) (xs : list A) : list A :=
  skipn (List.length xs - n) xs.

(** [[...messages, userMessage].slice(-6).map(...)] *)
Definition historyForBackend (messages : list (Message.t number))
    (userMessage : Message.t number) : list ChatHistoryMessage.t :=
  map (fun m => ChatHistoryMessage.make (Message.role m) (Message.content m))
      (lastN 6 (messages ++ [userMessage])).

(** What the handler is called with: a suggestion, or the form's event. *)
Inductive SendTrigger : Type :=
| Suggestion (text : jsstring)
| FormSubmit.

Definition messageTextOf (st : Chat.t number) (e : SendTrigger) : jsstring :=
  match e with
  | Suggestion text => text
  | FormSubmit => trim (Chat.input st)
  end.

(** How the synchronous part of the handler ends. *)
Inductive SendStart : Type :=
| Ignored
| ShownSources (st : Chat.t number)
| Asked (st : Chat.t number) (params : ChatParams.t).

(** The handler up to its [await]; [now i] is the reading of the [i]-th
    look at the clock. *)
Definition sendStart (controls : Controls.t) (st : Chat.t number)
    (e : SendTrigger) (now : nat -> N) : SendStart :=
  let messageText := messageTextOf st e in
  if isEmpty messageText || Chat.isLoading st then Ignored
  else
    let lower := trim (toLowerCase messageText) in
    if jsstring_eqb lower "show sources"
       && negb (Nat.eqb (List.length (Chat.currentSources st)) 0)
    then
      let assistantMessage :=
        Message.make (decimal (now 0%nat + 1)) assistant
          "Here are the sources for the previous answer."
          (Some (Chat.currentSources st)) None (now 1%nat) in
      ShownSources
        (Chat.make
           (Chat.messages st
            ++ [Message.make (decimal (now 2%nat)) user messageText None None
                  (now 3%nat);
                assistantMessage])
           [] (Chat.isLoading st) (Chat.currentSources st))
    else
      let userMessage :=
        Message.make (decimal (now 0%nat)) user messageText None None
          (now 1%nat) in
      Asked
        (Chat.make (Chat.messages st ++ [userMessage]) [] true
           (Chat.currentSources st))
        (ChatParams.make messageText (Controls.scope controls)
           (Controls.activeAgent controls) (Controls.strictCitations controls)
           (historyForBackend (Chat.messages st) userMessage)).

(** The handler after its [await]: the [try] branch when
    [askKnowledgeAgent] resolved, the [catch] branch when it rejected; then
    [finally]. *)
Definition sendFinish (st : Chat.t number)
    (outcome : Completion (ChatResponse.t number)) (now : nat -> N)
  : Chat.t number :=
  match outcome with
  | Return data =>
      let citations := mapBackendSourcesToCitations (ChatResponse.sources data) in
      let assistantMessage :=
        Message.make (decimal (now 2%nat + 1)) assistant
          (ChatResponse.answer data) (Some citations)
          (Some (ChatResponse.follow_up_questions data)) (now 3%nat) in
      Chat.make (Chat.messages st ++ [assistantMessage]) (Chat.input st) false
        citations
  | Throw _ =>
      let assistantMessage :=
        Message.make (decimal (now 2%nat + 1)) assistant
          "Sorry, I couldn't reach the knowledge backend. Please try again in a moment."
          None None (now 3%nat) in
      Chat.make (Chat.messages st ++ [assistantMessage]) (Chat.input st) false []
  end.

End Component.

(** * Properties *)

(** ** Strings *)

Lemma jsstring_eqb_eq (a b : jsstring) : jsstring_eqb a b = true <-> a = b.
Proof.
  revert b; induction a as [|x a IH]; intros [|y b]; simpl; split;
    try congruence; try reflexivity.
  - intros H. apply andb_true_iff in H as [Hx Hr].
    apply Z.eqb_eq in Hx. apply IH in Hr. congruence.
  - intros H. injection H as -> ->. rewrite Z.eqb_refl. simpl. now apply IH.
Qed.

Lemma jsstring_eqb_refl (a : jsstring) : jsstring_eqb a a = true.
Proof. now apply jsstring_eqb_eq. Qed.

Lemma isEmpty_true (s : jsstring) : isEmpty s = true <-> s = [].
Proof. destruct s; simpl; split; congruence. Qed.

Lemma trimStart_head (s : jsstring) :
  match trimStart s with
  | [] => True
  | c :: _ => isWhiteSpace c = false
  end.
Proof.
  induction s as [|c s IH]; simpl; [exact I|].
  destruct (isWhiteSpace c) eqn:E; [exact IH | exact E].
Qed.

Lemma trimStart_suffix (s : jsstring) :
  exists w, s = w ++ trimStart s /\ forallb isWhiteSpace w = true.
Proof.
  induction s as [|c s [w [Hs Hw]]]; simpl.
  - now exists [].
  - destruct (isWhiteSpace c) eqn:E.
    + exists (c :: w). simpl. rewrite E, Hw. split; [congruence | reflexivity].
    + now exists [].
Qed.

Lemma trimStart_fixed (c : Z) (s : jsstring) :
  isWhiteSpace c = false -> trimStart (c :: s) = c :: s.
Proof. intros E. simpl. now rewrite E. Qed.

Lemma rev_cons_last (s : jsstring) :
  s <> [] -> rev s = last s 0 :: rev (removelast s).
Proof.
  intros Hs. rewrite (app_removelast_last 0 Hs) at 1.
  now rewrite rev_app_distr.
Qed.

Lemma isTrimmed_trim (s : jsstring) : isTrimmed (trim s) = true.
Proof.
  unfold trim, trimEnd.
  pose proof (trimStart_head s) as Hhead.
  destruct (trimStart_suffix (rev (trimStart s))) as [w [Hw _]].
  pose proof (trimStart_head (rev (trimStart s))) as Hlast.
  destruct (trimStart (rev (trimStart s))) as [|c u] eqn:Eu; [reflexivity|].
  assert (Ht : trimStart s = rev u ++ c :: rev w).
  { rewrite <- (rev_involutive (trimStart s)), Hw, rev_app_distr. simpl.
    now rewrite <- app_assoc. }
  simpl rev. unfold isTrimmed.
  destruct (rev u ++ [c]) as [|x r] eqn:Er.
  - now destruct (rev u).
  - rewrite <- Er, last_last, Hlast. simpl. rewrite andb_true_r.
    assert (Hx : exists r', trimStart s = x :: r').
    { rewrite Ht. destruct (rev u) as [|y v]; simpl in *.
      - injection Er as <- <-. eauto.
      - injection Er as <- <-. eauto. }
    destruct Hx as [r' Hx]. rewrite Hx in Hhead. now rewrite Hhead.
Qed.

Lemma trim_isTrimmed (s : jsstring) : isTrimmed s = true -> trim s = s.
Proof.
  destruct s as [|c r]; [reflexivity|].
  unfold isTrimmed. intros H. apply andb_true_iff in H as [Hc Hl].
  apply negb_true_iff in Hc, Hl.
  unfold trim, trimEnd. rewrite (trimStart_fixed c r Hc).
  rewrite (rev_cons_last (c :: r)) by easy.
  rewrite trimStart_fixed by exact Hl.
  rewrite <- (rev_cons_last (c :: r)) by easy.
  apply rev_involutive.
Qed.

Lemma trim_whitespace (s : jsstring) :
  forallb isWhiteSpace s = true -> trim s = [].
Proof.
  intros H. unfold trim, trimEnd.
  assert (E : trimStart s = []).
  { induction s as [|c s IH]; [reflexivity|]. simpl in *.
    apply andb_true_iff in H as [Hc Hs]. rewrite Hc. now apply IH. }
  now rewrite E.
Qed.

(** A string without white space at all. *)
Definition noWhiteSpace (s : jsstring) : bool :=
  forallb (fun c => negb (isWhiteSpace c)) s.

Lemma noWhiteSpace_app (a b : jsstring) :
  noWhiteSpace (a ++ b) = noWhiteSpace a && noWhiteSpace b.
Proof. apply forallb_app. Qed.

Lemma forallb_last (P : Z -> bool) (s : jsstring) (d : Z) :
  forallb P s = true -> s <> [] -> P (last s d) = true.
Proof.
  induction s as [|c s IH]; [easy|]. intros H _.
  simpl in H. apply andb_true_iff in H as [Hc Hs].
  destruct s as [|c' s']; [exact Hc|]. apply IH; easy.
Qed.

Lemma noWhiteSpace_isTrimmed (s : jsstring) :
  noWhiteSpace s = true -> isTrimmed s = true.
Proof.
  intros H. destruct s as [|c r]; [reflexivity|].
  unfold isTrimmed. apply andb_true_iff. split.
  - simpl in H. now apply andb_true_iff in H as [Hc _].
  - now apply (forallb_last _ (c :: r) 0 H).
Qed.

Lemma noWhiteSpace_uint (d : Decimal.uint) :
  noWhiteSpace (str (NilEmpty.string_of_uint d)) = true.
Proof. induction d; simpl; auto. Qed.

Lemma noWhiteSpace_decimal (n : N) : noWhiteSpace (decimal n) = true.
Proof.
  unfold decimal, NilZero.string_of_uint.
  destruct (N.to_uint n); try reflexivity; apply noWhiteSpace_uint.
Qed.

Lemma decimal_nonempty (n : N) : decimal n <> [].
Proof.
  unfold decimal, NilZero.string_of_uint.
  destruct (N.to_uint n); discriminate.
Qed.

Lemma noWhiteSpace_syntheticId (idx : nat) (h : Z) :
  noWhiteSpace (syntheticId idx h) = true.
Proof.
  unfold syntheticId. rewrite !noWhiteSpace_app, !noWhiteSpace_decimal.
  reflexivity.
Qed.

Lemma syntheticId_nonempty (idx : nat) (h : Z) : syntheticId idx h <> [].
Proof. discriminate. Qed.

(** ** The hash *)

Lemma toInt32_mod (z : Z) : toInt32 z mod 4294967296 = z mod 4294967296.
Proof.
  unfold toInt32. cbv zeta.
  destruct (z mod 4294967296 <? 2147483648).
  - apply Z.mod_mod. lia.
  - rewrite <- (Z.mod_add _ 1) by lia.
    replace (z mod 4294967296 - 4294967296 + 1 * 4294967296)
      with (z mod 4294967296) by lia.
    apply Z.mod_mod. lia.
Qed.

Lemma toInt32_congr (a b : Z) :
  a mod 4294967296 = b mod 4294967296 -> toInt32 a = toInt32 b.
Proof. unfold toInt32. now intros ->. Qed.

Lemma toInt32_range (z : Z) : -2147483648 <= toInt32 z < 2147483648.
Proof.
  unfold toInt32. cbv zeta.
  pose proof (Z.mod_pos_bound z 4294967296 ltac:(lia)).
  destruct (z mod 4294967296 <? 2147483648) eqn:E.
  - apply Z.ltb_lt in E. lia.
  - apply Z.ltb_ge in E. lia.
Qed.

(** One turn of the loop is [h*31 + c] wrapped to 32 bits. *)
Lemma hashStep_31 (h c : Z) : hashStep h c = toInt32 (h * 31 + c).
Proof.
  unfold hashStep, shiftLeft32. apply toInt32_congr.
  rewrite Z.shiftl_mul_pow2 by lia.
  rewrite Z.add_mod, Zminus_mod, toInt32_mod by lia.
  rewrite Z.mul_mod, toInt32_mod by lia.
  rewrite <- Z.mul_mod, <- Zminus_mod, <- Z.add_mod by lia.
  f_equal. change (2 ^ 5) with 32. lia.
Qed.

Lemma hashString_hash31 (input : jsstring) : hashString input = hash31 input.
Proof.
  unfold hashString, hash31. generalize 0.
  induction input as [|c s IH]; intros h; simpl; [reflexivity|].
  now rewrite hashStep_31, IH.
Qed.

(** ** Completions *)

Lemma bind_Return {A B} (m : Completion A) (k : A -> Completion B) (b : B) :
  bind m k = Return b -> exists a, m = Return a /\ k a = Return b.
Proof. destruct m as [a|e]; simpl; [eauto | discriminate]. Qed.

(** Splits a hypothesis [x <- m ;; k = Return b] into its two steps. *)
Ltac inv_bind H :=
  let x := fresh "x" in
  let Hx := fresh "H" x in
  apply bind_Return in H as [x [Hx H]].

(** ** Ordered candidates

    The specification reads each chain [a ?? b ?? ... ?? d] as a list of
    candidates of which the first that is present (neither [undefined] nor
    [null]) is taken. *)

(** An object literal [{k1: v1, ...}] with Basic Latin names. *)
Definition properties {number} (props : list (string * Json number))
  : list (jsstring * Json number) :=
  map (fun p => (str (fst p), snd p)) props.

Definition object {number} (props : list (string * Json number)) : Json number :=
  JObj (properties props).

Fixpoint firstPresent {number} (candidates : list (option (Json number)))
  : option (Json number) :=
  match candidates with
  | [] => None
  | c :: rest => if isNullish c then firstPresent rest else c
  end.

(** The raw value whose serialization is hashed: [s ?? {}]. *)
Definition rawOrEmpty {number} (s : option (Json number)) : Json number :=
  match s with
  | None | Some JNull => JObj []
  | Some j => j
  end.

Definition accessLevelName (a : AccessLevel) : jsstring :=
  match a with
  | public => str "public"
  | internal => str "internal"
  end.

Section Properties.
Context {number : Type} {numberOps : JsNumber number}.

Abbreviation json := (Json number).
Abbreviation value := (option (Json number)).

Lemma firstPresent_not_nullish (cs : list value) (v : json) :
  firstPresent cs = Some v -> isNullish (Some v) = false.
Proof.
  induction cs as [|c cs IH]; simpl; [discriminate|].
  destruct (isNullish c) eqn:E; [exact IH|]. now intros ->.
Qed.

(** A chain that ends in a default is the first present candidate, or the
    default. *)
Lemma coalesce_chain (cs : list value) (d : json) :
  fold_right coalesce (Some d) cs
  = Some (match firstPresent cs with Some v => v | None => d end).
Proof.
  induction cs as [|c cs IH]; simpl; [reflexivity|].
  unfold coalesce at 1. destruct (isNullish c) eqn:E; [exact IH|].
  destruct c as [j|]; [reflexivity | discriminate].
Qed.

Lemma hashOfStringified_raw (s : value) :
  hashOfStringified (s ?? Some (JObj []))
  = Return (hashString (JSON_stringify (rawOrEmpty s))).
Proof. destruct s as [[| | | | |]|]; reflexivity. Qed.

(** What [normalizeSource] returns, step by step. *)
Lemma normalizeSource_Return (s : value) (idx : nat) (r : Source.t number) :
  normalizeSource s idx = Return r ->
  exists id0 title0 section0 source0 alRaw0 snippet0 fullText0,
    String_ (s ?. "id" ?? lit "") = Return id0
    /\ String_ (s ?. "title" ?? s ?. "metadata" ?. "title" ?? lit "Source")
       = Return title0
    /\ String_ (s ?. "section" ?? s ?. "metadata" ?. "section"
                ?? s ?. "metadata" ?. "heading" ?? lit "") = Return section0
    /\ String_ (s ?. "source" ?? s ?. "url" ?? s ?. "metadata" ?. "source"
                ?? s ?. "metadata" ?. "path" ?? lit "") = Return source0
    /\ String_ (s ?. "accessLevel" ?? s ?. "access_level"
                ?? s ?. "metadata" ?. "accessLevel"
                ?? s ?. "metadata" ?. "access_level" ?? lit "internal")
       = Return alRaw0
    /\ String_ (s ?. "snippet" ?? s ?. "metadata" ?. "snippet"
                ?? s ?. "metadata" ?. "text" ?? lit "") = Return snippet0
    /\ String_ (s ?. "fullText" ?? s ?. "full_text"
                ?? s ?. "metadata" ?. "fullText"
                ?? s ?. "metadata" ?. "text" ?? Some (JStr (trim snippet0)))
       = Return fullText0
    /\ r = Source.make
             (if isEmpty (trim id0)
              then syntheticId idx (hashString (JSON_stringify (rawOrEmpty s)))
              else trim id0)
             (trim title0) (trim section0) (trim source0)
             (if jsstring_eqb (toLowerCase alRaw0) "public"
              then public else internal)
             (trim snippet0) (trim fullText0) (passThrough s).
Proof.
  unfold normalizeSource. intros H.
  inv_bind H. inv_bind H. inv_bind H. inv_bind H. inv_bind H. inv_bind H.
  inv_bind H. inv_bind H.
  injection H as <-.
  do 7 eexists. repeat (split; [eassumption|]).
  f_equal.
  destruct (isEmpty (trim x)).
  - rewrite hashOfStringified_raw in Hx0. simpl in Hx0. now injection Hx0.
  - now injection Hx0.
Qed.

(** ** Access level *)

(** The candidates for the raw access level, in the order they are tried. *)
Definition accessCandidates (s : value) : list value :=
  [s ?. "accessLevel"; s ?. "access_level";
   s ?. "metadata" ?. "accessLevel"; s ?. "metadata" ?. "access_level"].


(** ** The synthetic id *)

(** C3: when the explicit id, converted to a string and trimmed, is empty,
    the normalized id is ["src-" + index + "-" + |h|], where [h] is the
    31-multiplier hash, wrapped to 32 bits at each step, of the JSON
    serialization of the raw value; the id is not empty, and normalizing the
    same input at the same index gives the same id. *)
Theorem synthetic_id_formula (s : value) (idx : nat) (r : Source.t number)
    (id0 : jsstring) :
  normalizeSource s idx = Return r ->
  String_ (s ?. "id" ?? lit "") = Return id0 ->
  trim id0 = [] ->
  Source.id r
  = str "src-" ++ decimal (N.of_nat idx) ++ str "-"
    ++ decimal (Z.abs_N (hash31 (JSON_stringify (rawOrEmpty s))))
  /\ Source.id r <> []
  /\ (forall r', normalizeSource s idx = Return r' -> Source.id r' = Source.id r).
Proof.
  intros H Hid Hempty. split; [|split].
  - apply normalizeSource_Return in H.
    destruct H as (id1 & ? & ? & ? & ? & ? & ? & Hid1 & _ & _ & _ & _ & _ & _ & ->).
    rewrite Hid in Hid1. injection Hid1 as <-.
    simpl Source.id. rewrite Hempty. simpl isEmpty. cbv iota.
    now rewrite hashString_hash31.
  - apply normalizeSource_Return in H.
    destruct H as (id1 & ? & ? & ? & ? & ? & ? & Hid1 & _ & _ & _ & _ & _ & _ & ->).
    rewrite Hid in Hid1. injection Hid1 as <-.
    simpl Source.id. rewrite Hempty. simpl isEmpty. cbv iota.
    apply syntheticId_nonempty.
  - intros r' H'. congruence.
Qed.

(** ** Trimming *)

(** C10: the six string fields of a normalized source carry no white space
    at either end, and a raw id made of white space only is replaced by the
    synthetic id. *)
Theorem normalized_fields_trimmed (s : value) (idx : nat) (r : Source.t number) :
  normalizeSource s idx = Return r ->
  isTrimmed (Source.id r) = true
  /\ isTrimmed (Source.title r) = true
  /\ isTrimmed (Source.section r) = true
  /\ isTrimmed (Source.source r) = true
  /\ isTrimmed (Source.snippet r) = true
  /\ isTrimmed (Source.fullText r) = true
  /\ (forall w, s ?. "id" = Some (JStr w) ->
                forallb isWhiteSpace w = true ->
                Source.id r
                = syntheticId idx (hashString (JSON_stringify (rawOrEmpty s)))).
Proof.
  intros H. apply normalizeSource_Return in H.
  destruct H as (id0 & ? & ? & ? & ? & ? & ? & Hid & _ & _ & _ & _ & _ & _ & ->).
  simpl. repeat split; try apply isTrimmed_trim.
  - destruct (isEmpty (trim id0)).
    + apply noWhiteSpace_isTrimmed, noWhiteSpace_syntheticId.
    + apply isTrimmed_trim.
  - intros w Hw Hws. rewrite Hw in Hid.
    unfold coalesce in Hid. simpl in Hid. injection Hid as <-.
    now rewrite (trim_whitespace w Hws).
Qed.

(** ** Canonical names *)

Lemma coalesce_present (j : json) (b : value) :
  isNullish (Some j) = false -> Some j ?? b = Some j.
Proof. unfold coalesce. now intros ->. Qed.

Lemma toLowerCase_accessLevelName (a : AccessLevel) :
  toLowerCase (accessLevelName a) = accessLevelName a.
Proof. destruct a; reflexivity. Qed.

(** C4 (as amended): a raw object that gives all seven canonical names a
    string value is normalized without loss when those strings carry no
    white space at either end, the id is not empty and the access level is
    ["public"] or ["internal"]. *)
Theorem canonical_fields_preserved (props : list (jsstring * json)) (idx : nat)
    (id title section source snippet fullText : jsstring) (a : AccessLevel) :
  lookup "id" props = Some (JStr id) ->
  lookup "title" props = Some (JStr title) ->
  lookup "section" props = Some (JStr section) ->
  lookup "source" props = Some (JStr source) ->
  lookup "accessLevel" props = Some (JStr (accessLevelName a)) ->
  lookup "snippet" props = Some (JStr snippet) ->
  lookup "fullText" props = Some (JStr fullText) ->
  id <> [] ->
  isTrimmed id = true ->
  isTrimmed title = true ->
  isTrimmed section = true ->
  isTrimmed source = true ->
  isTrimmed snippet = true ->
  isTrimmed fullText = true ->
  exists r, normalizeSource (Some (JObj props)) idx = Return r
    /\ Source.id r = id
    /\ Source.title r = title
    /\ Source.section r = section
    /\ Source.source r = source
    /\ accessLevelName (Source.accessLevel r) = accessLevelName a
    /\ Source.snippet r = snippet
    /\ Source.fullText r = fullText.
Proof.
  intros Hid Hti Hse Hso Hal Hsn Hft Hne Tid Tti Tse Tso Tsn Tft.
  unfold normalizeSource, optGet.
  rewrite Hid, Hti, Hse, Hso, Hal, Hsn, Hft.
  rewrite !coalesce_present by reflexivity.
  cbn [String_ ToString bind].
  rewrite (trim_isTrimmed id Tid).
  destruct id as [|c id']; [congruence|]. cbn [isEmpty bind].
  eexists. split; [reflexivity|]. cbn [Source.id Source.title Source.section
    Source.source Source.accessLevel Source.snippet Source.fullText].
  rewrite toLowerCase_accessLevelName.
  repeat split; try now apply trim_isTrimmed.
  now destruct a.
Qed.

(** ** The transport client *)

(** [fetch] resolved with an unread success response whose body parses to
    [data]. *)
Definition successBody (res : Response.t number) (data : json) : Prop :=
  ok res = true
  /\ Response.bodyUsed res = false
  /\ exists c, Response.body res = Some c /\ Response.parsed c = Some data.

Lemma json_successBody (res : Response.t number) (data : json) :
  successBody res data -> fst (json_ res) = Return data.
Proof.
  intros (_ & Hused & c & Hbody & Hparsed).
  unfold json_. now rewrite Hbody, Hused, Hparsed.
Qed.

(** C6 (as amended): [webSearch] returns the parsed body when it is an
    array, the body's [results] when the body is an object that carries a
    [results] other than [null], and the empty array for every other body,
    an object with a [null] [results] among them. *)
Theorem webSearch_result (res : Response.t number) (data : json) :
  successBody res data ->
  (forall items, data = JArr items -> webSearch res = Return (Some data))
  /\ (forall props v, data = JObj props ->
        lookup "results" props = Some v -> v <> JNull ->
        webSearch res = Return (Some v))
  /\ ((forall items, data <> JArr items) ->
      (forall props v, data = JObj props ->
         lookup "results" props = Some v -> v = JNull) ->
      webSearch res = Return (Some (JArr []))).
Proof.
  intros Hres. pose proof (json_successBody res data Hres) as Hjson.
  destruct Hres as (Hok & _).
  unfold webSearch. rewrite Hok, Hjson. cbn [negb bind].
  split; [|split].
  - now intros items ->.
  - intros props v -> Hv Hnull. cbn [isArray optGet]. rewrite Hv.
    destruct v; try reflexivity. congruence.
  - intros Harr Hobj. destruct data as [| | | |items|props]; try reflexivity.
    + now destruct (Harr items).
    + cbn [isArray optGet]. specialize (Hobj props).
      destruct (lookup "results" props) as [v|]; [|reflexivity].
      now rewrite (Hobj v eq_refl eq_refl).
Qed.

(** C7 (as amended): [normalizeSources] gives the empty sequence for
    whatever is not an array, and so do [listChatSessions] and
    [getChatSessionMessages] when the success body parses to a value that
    is not an array.  A success body that is not JSON at all is no such
    case: [res.json()] rejects and both operations throw a SyntaxError. *)
Theorem non_array_is_empty :
  (forall arr : value, isArray arr = false -> normalizeSources arr = Return [])
  /\ (forall (res : Response.t number) (data : json),
        successBody res data -> isArray (Some data) = false ->
        listChatSessions res = Return []
        /\ getChatSessionMessages res = Return [])
  /\ (forall res : Response.t number,
        ok res = true ->
        Response.bodyUsed res = false ->
        (forall c, Response.body res = Some c -> Response.parsed c = None) ->
        listChatSessions res = Throw SyntaxError
        /\ getChatSessionMessages res = Throw SyntaxError).
Proof.
  split; [|split].
  - intros [[| | | |items|props]|]; simpl; congruence.
  - intros res data Hres Harr.
    pose proof (json_successBody res data Hres) as Hjson.
    destruct Hres as (Hok & _).
    unfold listChatSessions, getChatSessionMessages.
    rewrite Hok, Hjson. cbn [negb bind].
    destruct data; try (split; reflexivity). discriminate.
  - intros res Hok Hused Hbody.
    assert (Hjson : fst (json_ res) = Throw SyntaxError).
    { unfold json_. destruct (Response.body res) as [c|]; [|reflexivity].
      now rewrite Hused, (Hbody c eq_refl). }
    unfold listChatSessions, getChatSessionMessages.
    rewrite Hok, Hjson. split; reflexivity.
Qed.

Lemma mapM_Return {A B} (f : A -> Completion B) (xs : list A) (ys : list B) :
  mapM f xs = Return ys -> Forall2 (fun x y => f x = Return y) xs ys.
Proof.
  revert ys; induction xs as [|x xs IH]; intros ys H; simpl in H.
  - injection H as <-. constructor.
  - inv_bind H. inv_bind H. injection H as <-.
    constructor; [assumption | now apply IH].
Qed.

(** The body of the specification's example for the alternate key. *)
Definition followUpsExample : json :=
  object [("answer", JStr "X"); ("sources", JArr []);
          ("follow_ups", JArr [JStr "A"; JStr "B"])].

(** C8: in the result of [askKnowledgeAgent], [follow_up_questions] holds
    the elements of the body's [follow_up_questions], each converted to a
    string; of [follow_ups] when the first key is absent; and nothing when
    both are absent.  For the body
    [{"answer":"X","sources":[],"follow_ups":["A","B"]}] it is ["A"; "B"]. *)
Theorem follow_up_questions_resolution :
  (forall (res : Response.t number) (data : json) (r : ChatResponse.t number),
      successBody res data ->
      askKnowledgeAgent res = Return r ->
      (forall xs, Some data ?. "follow_up_questions" = Some (JArr xs) ->
         mapM ToString xs = Return (ChatResponse.follow_up_questions r))
      /\ (forall ys, isNullish (Some data ?. "follow_up_questions") = true ->
            Some data ?. "follow_ups" = Some (JArr ys) ->
            mapM ToString ys = Return (ChatResponse.follow_up_questions r))
      /\ (isNullish (Some data ?. "follow_up_questions") = true ->
          isNullish (Some data ?. "follow_ups") = true ->
          ChatResponse.follow_up_questions r = []))
  /\ (forall res : Response.t number,
        successBody res followUpsExample ->
        exists r, askKnowledgeAgent res = Return r
          /\ ChatResponse.follow_up_questions r = [str "A"; str "B"]).
Proof.
  split.
  - intros res data r Hres H.
    pose proof (json_successBody res data Hres) as Hjson.
    destruct Hres as (Hok & _).
    unfold askKnowledgeAgent in H. rewrite Hok, Hjson in H.
    cbn [negb bind] in H.
    inv_bind H. inv_bind H. inv_bind H. inv_bind H. inv_bind H.
    injection H as <-. cbn [ChatResponse.follow_up_questions].
    split; [|split].
    + intros xs Hxs. now rewrite Hxs in Hx1.
    + intros ys Hnull Hys. rewrite Hys in Hx1.
      destruct (Some data ?. "follow_up_questions") as [[| | | | |]|];
        try discriminate; assumption.
    + intros Hnull1 Hnull2.
      destruct (Some data ?. "follow_up_questions") as [[| | | | |]|];
        try discriminate;
        destruct (Some data ?. "follow_ups") as [[| | | | |]|];
        try discriminate; now injection Hx1.
  - intros res Hres.
    pose proof (json_successBody res _ Hres) as Hjson.
    destruct Hres as (Hok & _).
    unfold askKnowledgeAgent. rewrite Hok, Hjson.
    eexists. split; reflexivity.
Qed.

(** C9: in the transcript [getChatSessionMessages] returns, the role of an
    entry is [assistant] exactly when the raw role is the string
    ["assistant"]; any other raw role, ["Assistant"] among them, gives
    [user]. *)
Theorem role_is_assistant_iff (res : Response.t number) (items : list json)
    (msgs : list ChatMessage.t) :
  successBody res (JArr items) ->
  getChatSessionMessages res = Return msgs ->
  Forall2 (fun m msg =>
             (ChatMessage.role msg = assistant
              <-> Some m ?. "role" = Some (JStr "assistant"))
             /\ (ChatMessage.role msg = user
                 <-> Some m ?. "role" <> Some (JStr "assistant"))
             /\ (Some m ?. "role" = Some (JStr "Assistant") ->
                 ChatMessage.role msg = user))
          items msgs.
Proof.
  intros Hres H.
  pose proof (json_successBody res _ Hres) as Hjson.
  destruct Hres as (Hok & _).
  unfold getChatSessionMessages in H. rewrite Hok, Hjson in H.
  cbn [negb bind] in H. apply mapM_Return in H.
  eapply Forall2_impl; [|exact H].
  intros m msg Hm. unfold toChatMessage in Hm.
  inv_bind Hm. inv_bind Hm. inv_bind Hm. injection Hm as <-.
  cbn [ChatMessage.role]. unfold toChatRole, strictEqualsString.
  destruct (Some m ?. "role") as [[| | |raw| |]|];
    try (split; [|split]; [split | split | ]; congruence).
  destruct (jsstring_eqb raw "assistant") eqn:E.
  - apply jsstring_eqb_eq in E. subst raw.
    split; [|split]; [split | split | ]; try congruence. discriminate.
  - assert (raw <> str "assistant").
    { intros ->. now rewrite jsstring_eqb_refl in E. }
    split; [|split]; [split | split | ]; congruence.
Qed.

(** ** Error messages *)

(** A response as [fetch] hands it over: nothing read yet. *)
Definition received (status : N) (raw : jsstring) (parsed : option json)
  : Response.t number :=
  Response.make status (Some (Response.mkContent raw parsed)) false.


(** C5, the step that fails: for a response with status 500 and the body
    [oops], which is no JSON, the message is ["HTTP 500"] and not ["oops"]:
    [json()] has read the body, so [text()] rejects.  A [detail] in a parsed
    body is found: [{"detail":"bad scope"}] gives ["bad scope"]. *)
Theorem parseError_unparseable_body :
  fst (parseError (received 500 "oops" None)) = str "HTTP 500"
  /\ fst (parseError (received 500 "oops" None)) <> str "oops"
  /\ listChatSessions (received 500 "oops" None) = Throw (Error "HTTP 500")
  /\ fst (parseError
             (received 400
                (JSON_stringify (object [("detail", JStr "bad scope")]))
                (Some (object [("detail", JStr "bad scope")]))))
     = str "bad scope".
Proof. repeat split; try reflexivity. discriminate. Qed.

(** ** Exceptions of the normalizer *)

(** C2, where it fails: a source whose [id] is an object with an own
    property [toString] makes [String] throw, so [normalizeSource] and
    [normalizeSources] throw a TypeError.  [normalizeSources([{}])] does
    return one entry, with the defaults and a synthetic id. *)
Theorem normalizeSource_throws :
  normalizeSource (Some (object [("id", object [("toString", JNull)])])) 0
  = Throw TypeError
  /\ normalizeSources
       (Some (JArr [object [("id", object [("toString", JNull)])]]))
     = Throw TypeError
  /\ normalizeSources (Some (JArr [JObj []]))
     = Return [Source.make "src-0-3938" "Source" [] [] internal [] [] []].
Proof. repeat split. Qed.

(** [normalizeSources] keeps length and order: the entry at position [i] is
    [normalizeSource] of the element at [i], with index [i]. *)
Lemma normalizeFrom_positions (items : list json) (k : nat)
    (rs : list (Source.t number)) :
  normalizeFrom k items = Return rs ->
  List.length rs = List.length items
  /\ forall i s, nth_error items i = Some s ->
       exists r, nth_error rs i = Some r
         /\ normalizeSource (Some s) (k + i) = Return r.
Proof.
  revert k rs; induction items as [|x items IH]; intros k rs H; cbn in H.
  - injection H as <-. split; [reflexivity|]. now intros [|i] s.
  - inv_bind H. inv_bind H. injection H as <-.
    destruct (IH _ _ Hx1) as [Hlen Hnth].
    split; [cbn; congruence|].
    intros [|i] s Hi; cbn in Hi.
    + injection Hi as <-. exists x0. now rewrite Nat.add_0_r.
    + destruct (Hnth i s Hi) as (r & Hr & Hnorm).
      exists r. split; [exact Hr|].
      now replace (k + S i)%nat with (S k + i)%nat by lia.
Qed.

Theorem normalizeSources_positions (items : list json)
    (rs : list (Source.t number)) :
  normalizeSources (Some (JArr items)) = Return rs ->
  List.length rs = List.length items
  /\ forall i s, nth_error items i = Some s ->
       exists r, nth_error rs i = Some r
         /\ normalizeSource (Some s) i = Return r.
Proof. intros H. exact (normalizeFrom_positions items 0 rs H). Qed.

Lemma lookup_filter (keep : jsstring -> bool) (k : jsstring)
    (props : list (jsstring * json)) :
  keep k = true ->
  (forall k', jsstring_eqb k' k = true -> keep k' = true) ->
  lookup k (filter (fun p => keep (fst p)) props) = lookup k props.
Proof.
  intros Hk Hcompat. induction props as [|[k' v] props IH]; [reflexivity|].
  cbn [filter fst lookup].
  destruct (jsstring_eqb k' k) eqn:E.
  - rewrite (Hcompat k' E). cbn [lookup]. now rewrite E.
  - destruct (keep k'); [cbn [lookup]; now rewrite E | exact IH].
Qed.

(** The properties of a raw object that the normalizer does not set are
    handed on unchanged. *)
Theorem passThrough_preserved (props : list (jsstring * json)) (idx : nat)
    (r : Source.t number) (k : jsstring) :
  normalizeSource (Some (JObj props)) idx = Return r ->
  existsb (jsstring_eqb k) normalizedNames = false ->
  lookup k (Source.rest r) = lookup k props.
Proof.
  intros H Hk. apply normalizeSource_Return in H.
  destruct H as (? & ? & ? & ? & ? & ? & ? & _ & _ & _ & _ & _ & _ & _ & ->).
  cbn [Source.rest]. unfold passThrough. cbn [ownProperties].
  apply (lookup_filter
           (fun k' => negb (existsb (jsstring_eqb k') normalizedNames))).
  - now rewrite Hk.
  - intros k' E. apply jsstring_eqb_eq in E. subst k'. now rewrite Hk.
Qed.

(** [hashString] is the 31-multiplier hash of the specification, and a
    signed 32-bit integer. *)
Theorem hashString_int32 (input : jsstring) :
  hashString input = hash31 input
  /\ -2147483648 <= hashString input < 2147483648.
Proof.
  split; [apply hashString_hash31|].
  unfold hashString. rewrite <- fold_left_rev_right.
  destruct (rev input) as [|c s]; cbn [fold_right]; [lia|].
  apply toInt32_range.
Qed.

End Properties.

(** * Concrete inputs, with integers for numbers *)

Definition upperCasePublic : Json Z := object [("accessLevel", JStr "PUBLIC")].

Definition paddedPublic : Json Z := object [("access_level", JStr "Public ")].

Definition canonicalProperties : list (jsstring * Json Z) :=
  properties
    [("id", JStr "doc-1"); ("title", JStr "Rates"); ("section", JStr "2.1");
     ("source", JStr "kb/rates.md"); ("accessLevel", JStr "public");
     ("snippet", JStr "Fixed rate"); ("fullText", JStr "Fixed rate, 30 years");
     ("score", JNum 7)].

Definition canonicalSource : Json Z := JObj canonicalProperties.

Definition paddedSource : Json Z :=
  object [("id", JStr "doc-1"); ("title", JStr " Rates "); ("section", JStr "2.1");
          ("source", JStr "kb/rates.md"); ("accessLevel", JStr "public");
          ("snippet", JStr "Fixed rate"); ("fullText", JStr "Fixed rate, 30 years")].

Definition blankIdSource : Json Z :=
  object [("id", JStr "   "); ("title", JStr "  Rates"); ("page", JNum 3)].

Definition transcript : list (Json Z) :=
  [object [("id", JNum 1); ("role", JStr "assistant"); ("content", JStr "Hello")];
   object [("id", JNum 2); ("role", JStr "Assistant"); ("content", JStr "Hi")];
   object [("id", JNum 3); ("content", JStr "?")]].

Definition searchHits : Json Z :=
  JArr [object [("title", JStr "Fed"); ("link", JStr "https://fed.example")]].

(** A success response whose body parses to [data]. *)
Definition success (data : Json Z) : Response.t Z :=
  received 200 (JSON_stringify data) (Some data).

Lemma successBody_success (data : Json Z) : successBody (success data) data.
Proof.
  unfold successBody, success, received. cbn.
  repeat split. eexists. split; reflexivity.
Defined.



Lemma synthetic_id_formula_witness :
  normalizeSource (Some blankIdSource) 7
  = Return (Source.make "src-7-7556328" "Rates" [] [] internal [] []
              [(str "page", JNum 3)])
  /\ String_ (Some blankIdSource ?. "id" ?? lit "") = Return (str "   ")
  /\ trim "   " = []
  /\ str "src-" ++ decimal 7 ++ str "-"
     ++ decimal (Z.abs_N (hash31 (JSON_stringify blankIdSource)))
     = str "src-7-7556328".
Proof.
  destruct (synthetic_id_formula (Some blankIdSource) 7 _ "   "
              eq_refl eq_refl eq_refl) as (Hid & _ & _).
  split; [reflexivity|]. split; [reflexivity|]. split; [reflexivity|].
  exact (eq_sym Hid).
Defined.

Lemma normalized_fields_trimmed_witness :
  normalizeSource (Some blankIdSource) 7
  = Return (Source.make "src-7-7556328" "Rates" [] [] internal [] []
              [(str "page", JNum 3)])
  /\ isTrimmed "  Rates" = false
  /\ isTrimmed "Rates" = true
  /\ syntheticId 7 (hashString (JSON_stringify blankIdSource))
     = str "src-7-7556328".
Proof.
  destruct (normalized_fields_trimmed (Some blankIdSource) 7 _ eq_refl)
    as (_ & Htitle & _ & _ & _ & _ & Hid).
  split; [reflexivity|]. split; [reflexivity|].
  split; [exact Htitle|].
  symmetry. exact (Hid "   " eq_refl eq_refl).
Defined.

Lemma canonical_fields_preserved_witness :
  exists r, normalizeSource (Some canonicalSource) 0 = Return r
    /\ Source.id r = str "doc-1"
    /\ Source.title r = str "Rates"
    /\ Source.section r = str "2.1"
    /\ Source.source r = str "kb/rates.md"
    /\ accessLevelName (Source.accessLevel r) = str "public"
    /\ Source.snippet r = str "Fixed rate"
    /\ Source.fullText r = str "Fixed rate, 30 years".
Proof.
  apply (canonical_fields_preserved canonicalProperties 0 "doc-1" "Rates"
           "2.1" "kb/rates.md" "Fixed rate" "Fixed rate, 30 years" public);
    try reflexivity.
  discriminate.
Defined.

(** C4 as stated fails: a title with white space around it is trimmed. *)
Lemma padded_title_is_altered :
  exists r, normalizeSource (Some paddedSource) 0 = Return r
    /\ Some paddedSource ?. "title" = Some (JStr " Rates ")
    /\ Source.title r = str "Rates"
    /\ Source.title r <> str " Rates ".
Proof.
  eexists. split; [reflexivity|]. split; [reflexivity|].
  split; [reflexivity | discriminate].
Qed.

Lemma webSearch_result_witness :
  successBody (success (object [("results", searchHits)]))
              (object [("results", searchHits)])
  /\ webSearch (success (object [("results", searchHits)]))
     = Return (Some searchHits)
  /\ webSearch (success searchHits) = Return (Some searchHits)
  /\ webSearch (success (object [("results", JNull)])) = Return (Some (JArr []))
  /\ webSearch (success (JStr "none")) = Return (Some (JArr [])).
Proof.
  split; [apply successBody_success|].
  split; [|split; [|split]].
  - apply (proj1 (proj2 (webSearch_result _ _ (successBody_success _)))
                 [(str "results", searchHits)] searchHits);
      [reflexivity | reflexivity | discriminate].
  - exact (proj1 (webSearch_result _ _ (successBody_success _)) _ eq_refl).
  - reflexivity.
  - reflexivity.
Defined.

(** C6 as stated fails: a body that carries [results: null] gives the
    empty array, not its [results]. *)
Lemma webSearch_null_results :
  Some (object [("results", JNull)] : Json Z) ?. "results" = Some JNull
  /\ webSearch (success (object [("results", JNull)])) = Return (Some (JArr []))
  /\ webSearch (success (object [("results", JNull)])) <> Return (Some JNull).
Proof. split; [reflexivity|]. split; [reflexivity | discriminate]. Qed.

Lemma non_array_is_empty_witness :
  normalizeSources (Some (JObj [] : Json Z)) = Return []
  /\ normalizeSources (@None (Json Z)) = Return []
  /\ normalizeSources (Some (JNull : Json Z)) = Return []
  /\ listChatSessions (success (JObj [])) = Return []
  /\ getChatSessionMessages (success (JObj [])) = Return []
  /\ getChatSessionMessages (received (number := Z) 200 "<html>" None)
     = Throw SyntaxError.
Proof.
  destruct (@non_array_is_empty Z _) as (Hsources & Hsessions & Hsyntax).
  split; [exact (Hsources (Some (JObj [])) eq_refl)|].
  split; [exact (Hsources None eq_refl)|].
  split; [exact (Hsources (Some JNull) eq_refl)|].
  destruct (Hsessions _ _ (successBody_success (JObj [])) eq_refl)
    as [Hlist Hget].
  split; [exact Hlist|]. split; [exact Hget|].
  refine (proj2 (Hsyntax (received (number := Z) 200 "<html>" None)
                   eq_refl eq_refl _)).
  intros c Hc. injection Hc as <-. reflexivity.
Defined.

(** C7 as stated fails: a success response whose body is not JSON is not an
    array either, and the list operations throw on it instead of returning
    the empty sequence. *)
Lemma non_json_success_body_throws :
  ok (received (number := Z) 200 "<html>" None) = true
  /\ listChatSessions (received (number := Z) 200 "<html>" None)
     = Throw SyntaxError
  /\ getChatSessionMessages (received (number := Z) 200 "<html>" None)
     = Throw SyntaxError
  /\ listChatSessions (received (number := Z) 200 "<html>" None) <> Return [].
Proof. repeat split. discriminate. Qed.

Lemma follow_up_questions_resolution_witness :
  exists r, askKnowledgeAgent (success followUpsExample) = Return r
    /\ ChatResponse.follow_up_questions r = [str "A"; str "B"].
Proof.
  exact (proj2 (@follow_up_questions_resolution Z _) _
           (successBody_success followUpsExample)).
Defined.

Lemma role_is_assistant_iff_witness :
  successBody (success (JArr transcript)) (JArr transcript)
  /\ exists msgs, getChatSessionMessages (success (JArr transcript)) = Return msgs
       /\ map ChatMessage.role msgs = [assistant; user; user]
       /\ Forall2 (fun m msg =>
                     ChatMessage.role msg = assistant
                     <-> Some m ?. "role" = Some (JStr "assistant"))
                  transcript msgs.
Proof.
  split; [apply successBody_success|].
  eexists. split; [reflexivity|]. split; [reflexivity|].
  eapply Forall2_impl;
    [|exact (role_is_assistant_iff (success (JArr transcript)) transcript _
               (successBody_success _) eq_refl)].
  intros m msg H. exact (proj1 H).
Defined.

Lemma normalizeSources_positions_witness :
  exists rs,
    normalizeSources (Some (JArr [canonicalSource; blankIdSource])) = Return rs
    /\ List.length rs = 2%nat
    /\ map Source.id rs = [str "doc-1"; str "src-1-7556328"].
Proof.
  eexists. split; [reflexivity|]. split; [|reflexivity].
  exact (proj1 (normalizeSources_positions
                  [canonicalSource; blankIdSource] _ eq_refl)).
Defined.

Lemma passThrough_preserved_witness :
  exists r, normalizeSource (Some canonicalSource) 0 = Return r
    /\ lookup "score" (Source.rest r) = Some (JNum 7).
Proof.
  eexists. split; [reflexivity|].
  exact (passThrough_preserved canonicalProperties 0 _ "score" eq_refl eq_refl).
Defined.



From Stdlib Require Import DecimalPos DecimalN.

(** * The rest of the API layer and its callers *)

(** ** The base address *)

(** The base address is never empty and carries no white space at either
    end; a variable that holds more than white space is used trimmed,
    anything else gives the default. *)
Theorem API_BASE_URL_trimmed (env : option jsstring) :
  API_BASE_URL env <> []
  /\ isTrimmed (API_BASE_URL env) = true
  /\ (forall v, env = Some v -> trim v <> [] -> API_BASE_URL env = trim v)
  /\ (forall v, env = Some v -> forallb isWhiteSpace v = true ->
        API_BASE_URL env = str "http://127.0.0.1:8000")
  /\ (env = None -> API_BASE_URL env = str "http://127.0.0.1:8000").
Proof.
  unfold API_BASE_URL. split; [|split; [|split; [|split]]];
    [| | | |now intros ->].
  - destruct env as [v|]; [|discriminate].
    destruct (isEmpty (trim v)) eqn:E; [discriminate|].
    intros C. rewrite C in E. discriminate.
  - destruct env as [v|]; [|reflexivity].
    destruct (isEmpty (trim v)); [reflexivity | apply isTrimmed_trim].
  - intros v -> Hv. destruct (trim v); [congruence | reflexivity].
  - intros v -> Hv. now rewrite (trim_whitespace v Hv).
Qed.

(** ** [encodeURIComponent] and the session address *)

(** A string of UTF-16 code units. *)
Definition codeUnits (s : jsstring) : Prop := Forall (fun c => 0 <= c < 65536) s.

(** What an encoded component is made of: unreserved characters and [%]. *)
Definition isUriSafe (c : Z) : bool := isUriUnreserved c || (c =? 37).

(** [s.isWellFormed()]: every surrogate is half of a pair. *)
Fixpoint isWellFormed (s : jsstring) : bool :=
  match s with
  | [] => true
  | c :: rest =>
      if isLeadingSurrogate c then
        match rest with
        | d :: rest' => isTrailingSurrogate d && isWellFormed rest'
        | [] => false
        end
      else negb (isTrailingSurrogate c) && isWellFormed rest
  end.

Lemma hexUpper_safe (d : Z) : 0 <= d < 16 -> isUriSafe (hexUpper d) = true.
Proof.
  intros H. unfold hexUpper.
  assert (d = 0 \/ d = 1 \/ d = 2 \/ d = 3 \/ d = 4 \/ d = 5 \/ d = 6 \/ d = 7
          \/ d = 8 \/ d = 9 \/ d = 10 \/ d = 11 \/ d = 12 \/ d = 13 \/ d = 14
          \/ d = 15) as Hd by lia.
  repeat (destruct Hd as [->|Hd]; [reflexivity|]). now subst.
Qed.

Lemma percentOctet_safe (b : Z) :
  0 <= b < 256 -> forallb isUriSafe (percentOctet b) = true.
Proof.
  intros H. unfold percentOctet. cbn [forallb].
  rewrite !hexUpper_safe; [reflexivity | |].
  - apply Z.mod_pos_bound. lia.
  - split; [apply Z.div_pos; lia | apply Z.div_lt_upper_bound; lia].
Qed.

Lemma utf8_octets (cp : Z) :
  0 <= cp < 1114112 -> Forall (fun b => 0 <= b < 256) (utf8 cp).
Proof.
  intros H. unfold utf8.
  destruct (cp <? 128) eqn:E1; [apply Z.ltb_lt in E1; repeat constructor; lia|].
  apply Z.ltb_ge in E1.
  destruct (cp <? 2048) eqn:E2.
  { apply Z.ltb_lt in E2.
    pose proof (Z.mod_pos_bound cp 64 ltac:(lia)).
    assert (0 <= cp / 64 < 32)
      by (split; [apply Z.div_pos; lia | apply Z.div_lt_upper_bound; lia]).
    repeat constructor; lia. }
  apply Z.ltb_ge in E2.
  destruct (cp <? 65536) eqn:E3.
  { apply Z.ltb_lt in E3.
    pose proof (Z.mod_pos_bound cp 64 ltac:(lia)).
    pose proof (Z.mod_pos_bound (cp / 64) 64 ltac:(lia)).
    assert (0 <= cp / 4096 < 16)
      by (split; [apply Z.div_pos; lia | apply Z.div_lt_upper_bound; lia]).
    repeat constructor; lia. }
  apply Z.ltb_ge in E3.
  pose proof (Z.mod_pos_bound cp 64 ltac:(lia)).
  pose proof (Z.mod_pos_bound (cp / 64) 64 ltac:(lia)).
  pose proof (Z.mod_pos_bound (cp / 4096) 64 ltac:(lia)).
  assert (0 <= cp / 262144 < 8)
    by (split; [apply Z.div_pos; lia | apply Z.div_lt_upper_bound; lia]).
  repeat constructor; lia.
Qed.

Lemma percentEncode_safe (cp : Z) :
  0 <= cp < 1114112 -> forallb isUriSafe (percentEncode cp) = true.
Proof.
  intros H. unfold percentEncode.
  pose proof (utf8_octets cp H) as Hoctets.
  induction Hoctets as [|b bs Hb _ IH]; [reflexivity|].
  cbn [flat_map]. rewrite forallb_app, percentOctet_safe, IH by assumption.
  reflexivity.
Qed.

Lemma pairCodePoint_range (c d : Z) :
  isLeadingSurrogate c = true -> isTrailingSurrogate d = true ->
  0 <= pairCodePoint c d < 1114112.
Proof.
  unfold isLeadingSurrogate, isTrailingSurrogate, pairCodePoint.
  intros Hc Hd. apply andb_true_iff in Hc as [Hc1 Hc2].
  apply andb_true_iff in Hd as [Hd1 Hd2].
  apply Z.leb_le in Hc1, Hc2, Hd1, Hd2. lia.
Qed.

(** Induction over a string two code units at a time, as the functions
    that pair surrogates recurse. *)
Lemma jsstring_pair_ind (P : jsstring -> Prop) :
  P [] ->
  (forall c, P [] -> P [c]) ->
  (forall c d rest, P (d :: rest) -> P rest -> P (c :: d :: rest)) ->
  forall s, P s.
Proof.
  intros Hnil Hone Hcons s.
  assert (H : P s /\ forall c, P (c :: s)).
  { induction s as [|d rest [IH1 IH2]].
    - split; [exact Hnil | intros c; now apply Hone].
    - split; [apply IH2 | intros c; apply Hcons; [apply IH2 | exact IH1]]. }
  apply H.
Qed.

(** An encoded component holds nothing but unreserved characters and the
    percent sign of the escapes: no [/], [?], [#] or [&]. *)
Lemma encodeURIComponent_safe (s e : jsstring) :
  codeUnits s ->
  encodeURIComponent s = Some e ->
  forallb isUriSafe e = true.
Proof.
  revert e. induction s as [|c IH|c d rest IH1 IH2] using jsstring_pair_ind;
    intros e Hs He.
  - injection He as <-. reflexivity.
  - inversion Hs as [|? ? Hc _]; subst. cbn in He.
    destruct (isUriUnreserved c) eqn:Eu.
    + injection He as <-. cbn. unfold isUriSafe. now rewrite Eu.
    + destruct (isLeadingSurrogate c); [discriminate|].
      destruct (isTrailingSurrogate c); [discriminate|].
      injection He as <-. rewrite app_nil_r.
      apply percentEncode_safe. lia.
  - inversion Hs as [|? ? Hc Hrest]; subst.
    inversion Hrest as [|? ? Hd Hrest']; subst.
    cbn [encodeURIComponent] in He.
    destruct (isUriUnreserved c) eqn:Eu.
    { change (option_map (cons c) (encodeURIComponent (d :: rest)) = Some e) in He.
      destruct (encodeURIComponent (d :: rest)) as [e'|] eqn:E'; [|discriminate].
      injection He as <-. cbn [forallb]. unfold isUriSafe at 1. rewrite Eu.
      now apply IH1. }
    destruct (isLeadingSurrogate c) eqn:El.
    { destruct (isTrailingSurrogate d) eqn:Et; [|discriminate].
      destruct (encodeURIComponent rest) as [e'|] eqn:E'; [|discriminate].
      injection He as <-. rewrite forallb_app.
      rewrite percentEncode_safe by now apply pairCodePoint_range.
      now apply IH2. }
    destruct (isTrailingSurrogate c); [discriminate|].
    change (option_map (app (percentEncode c)) (encodeURIComponent (d :: rest))
            = Some e) in He.
    destruct (encodeURIComponent (d :: rest)) as [e'|] eqn:E'; [|discriminate].
    injection He as <-. rewrite forallb_app.
    rewrite percentEncode_safe by lia. now apply IH1.
Qed.

Lemma isUriUnreserved_range (c : Z) : isUriUnreserved c = true -> 33 <= c <= 126.
Proof.
  unfold isUriUnreserved, isAlphaNumeric. cbn [existsb]. intros H.
  repeat (apply orb_true_iff in H as [H|H]);
    try (apply andb_true_iff in H as [H1 H2]; apply Z.leb_le in H1, H2; lia);
    try (apply Z.eqb_eq in H; lia).
  discriminate.
Qed.

Lemma isUriUnreserved_not_surrogate (c : Z) :
  isUriUnreserved c = true ->
  isLeadingSurrogate c = false /\ isTrailingSurrogate c = false.
Proof.
  intros H. apply isUriUnreserved_range in H.
  unfold isLeadingSurrogate, isTrailingSurrogate.
  split; apply andb_false_iff; left; apply Z.leb_gt; lia.
Qed.

(** [encodeURIComponent] throws exactly on the strings that are not
    well-formed UTF-16, and leaves a string of unreserved characters as it
    is. *)
Lemma encodeURIComponent_wellFormed (s : jsstring) :
  (encodeURIComponent s = None <-> isWellFormed s = false)
  /\ (forallb isUriUnreserved s = true -> encodeURIComponent s = Some s).
Proof.
  split.
  - induction s as [|c IH|c d rest IH1 IH2] using jsstring_pair_ind.
    + cbn. split; discriminate.
    + cbn. destruct (isUriUnreserved c) eqn:Eu.
      * destruct (isUriUnreserved_not_surrogate c Eu) as [-> ->].
        cbn. split; discriminate.
      * destruct (isLeadingSurrogate c); [tauto|].
        destruct (isTrailingSurrogate c); cbn; [tauto | split; discriminate].
    + cbn [encodeURIComponent isWellFormed].
      destruct (isUriUnreserved c) eqn:Eu.
      { destruct (isUriUnreserved_not_surrogate c Eu) as [-> ->].
        cbn [negb andb].
        change (option_map (cons c) (encodeURIComponent (d :: rest)) = None
                <-> isWellFormed (d :: rest) = false).
        rewrite <- IH1. destruct (encodeURIComponent (d :: rest));
          cbn; split; easy. }
      destruct (isLeadingSurrogate c).
      { destruct (isTrailingSurrogate d); cbn [andb]; [|tauto].
        rewrite <- IH2. destruct (encodeURIComponent rest);
          cbn; split; easy. }
      destruct (isTrailingSurrogate c); cbn [negb andb]; [tauto|].
      change (option_map (app (percentEncode c)) (encodeURIComponent (d :: rest))
              = None <-> isWellFormed (d :: rest) = false).
      rewrite <- IH1. destruct (encodeURIComponent (d :: rest));
        cbn; split; easy.
  - induction s as [|c s IH]; [reflexivity|].
    cbn [forallb]. intros H. apply andb_true_iff in H as [Hc Hs].
    destruct s as [|d rest].
    + cbn. now rewrite Hc.
    + cbn [encodeURIComponent]. rewrite Hc.
      change (option_map (cons c) (encodeURIComponent (d :: rest))
              = Some (c :: d :: rest)).
      now rewrite (IH Hs).
Qed.

Lemma isUriSafe_not_delimiter (c : Z) :
  isUriSafe c = true -> c <> 47 /\ c <> 63 /\ c <> 35 /\ c <> 38.
Proof.
  unfold isUriSafe. intros H.
  repeat split; intros ->; discriminate.
Qed.

(** The address of a session's messages is the base, the fixed path and one
    more segment: whatever the session id holds, the segment has no [/],
    [?], [#] or [&] in it. *)
Theorem sessionMessagesUrl_one_segment (base sessionId url : jsstring) :
  codeUnits sessionId ->
  sessionMessagesUrl base sessionId = Some url ->
  exists segment,
    url = base ++ str "/api/chat/sessions/" ++ segment
    /\ Forall (fun c => c <> 47 /\ c <> 63 /\ c <> 35 /\ c <> 38) segment.
Proof.
  intros Hs H. unfold sessionMessagesUrl in H.
  destruct (encodeURIComponent sessionId) as [e|] eqn:E; [|discriminate].
  injection H as <-. exists e. split; [reflexivity|].
  pose proof (encodeURIComponent_safe sessionId e Hs E) as Hsafe.
  apply Forall_forall. intros c Hc.
  apply isUriSafe_not_delimiter.
  rewrite forallb_forall in Hsafe. now apply Hsafe.
Qed.

(** The address of a session's messages cannot be built, a URIError being
    thrown before any request, exactly when the session id is not
    well-formed UTF-16; an id of unreserved characters is appended as it
    is. *)
Theorem sessionMessagesUrl_defined_iff (base sessionId : jsstring) :
  (sessionMessagesUrl base sessionId = None <-> isWellFormed sessionId = false)
  /\ (forallb isUriUnreserved sessionId = true ->
      sessionMessagesUrl base sessionId
      = Some (base ++ str "/api/chat/sessions/" ++ sessionId)).
Proof.
  destruct (encodeURIComponent_wellFormed sessionId) as [Hnone Hsame].
  unfold sessionMessagesUrl. split.
  - rewrite <- Hnone. destruct (encodeURIComponent sessionId); cbn; split; easy.
  - intros H. now rewrite (Hsame H).
Qed.

(** ** The request of [askKnowledgeAgent] *)

Section RequestBody.
Context {number : Type} {numberOps : JsNumber number}.

(** The request carries [chat_session_id] only for a session id that is
    neither absent nor empty, and then that id; the other five properties
    are always there, the scope as one of the three words. *)
Theorem chatRequest_properties (question : jsstring) (scope : Scope)
    (agent : jsstring) (strictCitations : bool)
    (history : list ChatHistoryMessage.t) (chatSessionId : option jsstring) :
  let body : option (Json number) :=
    Some (chatRequest question scope agent strictCitations history chatSessionId) in
  (body ?. "chat_session_id" = None
   <-> chatSessionId = None \/ chatSessionId = Some [])
  /\ (forall id, chatSessionId = Some id -> id <> [] ->
        body ?. "chat_session_id" = Some (JStr id))
  /\ body ?. "query" = Some (JStr question)
  /\ body ?. "agent" = Some (JStr agent)
  /\ body ?. "strict_citations" = Some (JBool strictCitations)
  /\ (exists turns, body ?. "history" = Some (JArr turns)
        /\ List.length turns = List.length history)
  /\ (body ?. "scope" = Some (JStr "internal")
      \/ body ?. "scope" = Some (JStr "web")
      \/ body ?. "scope" = Some (JStr "hybrid")).
Proof.
  cbv zeta. unfold chatRequest. cbn [optGet app lookup].
  repeat split.
  - destruct chatSessionId as [[|c id]|]; cbn; auto; discriminate.
  - intros [H|H]; subst; reflexivity.
  - intros id -> Hid. destruct id; [congruence | reflexivity].
  - eexists. split; [reflexivity|]. apply length_map.
  - destruct scope; cbn; auto.
Qed.

End RequestBody.

(** ** The operations, whatever the response *)

Section Operations.
Context {number : Type} {numberOps : JsNumber number}.

(** On a response that is not OK no operation returns a result: each one
    throws an [Error] that carries the message of [parseError], never
    another kind of exception. *)
Theorem operations_reject_non_ok (res : Response.t number) :
  ok res = false ->
  askKnowledgeAgent res = Throw (Error (fst (parseError res)))
  /\ listChatSessions res = Throw (Error (fst (parseError res)))
  /\ getChatSessionMessages res = Throw (Error (fst (parseError res)))
  /\ webSearch res = Throw (Error (fst (parseError res)))
  /\ testLLM res = Throw (Error (fst (parseError res)))
  /\ testRAG res = Throw (Error (fst (parseError res)))
  /\ testSerper res = Throw (Error (fst (parseError res))).
Proof.
  intros Hok.
  unfold askKnowledgeAgent, listChatSessions, getChatSessionMessages,
    webSearch, testLLM, testRAG, testSerper, testEndpoint, throwParsed.
  rewrite Hok. repeat split.
Qed.

(** The body of an unread response is not JSON: there is none, or its
    text does not parse. *)
Definition unparseable (res : Response.t number) : Prop :=
  Response.bodyUsed res = false
  /\ match Response.body res with
     | None => True
     | Some c => Response.parsed c = None
     end.


(** [listChatSessions] returns one session per element of the body, in
    order.  A missing or null [title] reads ["New chat"], a missing or null
    [id] or [preview] the empty string; a string is kept as it is, without
    trimming; [updated_at] is absent unless the raw value is truthy. *)
Theorem listChatSessions_entries (res : Response.t number)
    (items : list (Json number)) (sessions : list ChatSession.t) :
  successBody res (JArr items) ->
  listChatSessions res = Return sessions ->
  Forall2 (fun s cs =>
             (isNullish (Some s ?. "title") = true ->
              ChatSession.title cs = str "New chat")
             /\ (isNullish (Some s ?. "id") = true -> ChatSession.id cs = [])
             /\ (isNullish (Some s ?. "preview") = true ->
                 ChatSession.preview cs = [])
             /\ (forall x, Some s ?. "title" = Some (JStr x) ->
                   ChatSession.title cs = x)
             /\ (forall x, Some s ?. "id" = Some (JStr x) -> ChatSession.id cs = x)
             /\ (forall x, Some s ?. "preview" = Some (JStr x) ->
                   ChatSession.preview cs = x)
             /\ (truthy (Some s ?. "updated_at") = false ->
                 ChatSession.updated_at cs = None)
             /\ (forall x, Some s ?. "updated_at" = Some (JStr x) -> x <> [] ->
                   ChatSession.updated_at cs = Some x))
          items sessions.
Proof.
  intros Hres H.
  pose proof (json_successBody res _ Hres) as Hjson.
  destruct Hres as (Hok & _).
  unfold listChatSessions in H. rewrite Hok, Hjson in H.
  cbn [negb bind] in H. apply mapM_Return in H.
  eapply Forall2_impl; [|exact H].
  intros s cs Hs. unfold toChatSession in Hs.
  inv_bind Hs. inv_bind Hs. inv_bind Hs. inv_bind Hs. injection Hs as <-.
  cbn [ChatSession.title ChatSession.id ChatSession.preview
       ChatSession.updated_at].
  unfold coalesce in *. unfold stringIfTruthy in Hx2.
  repeat split.
  - intros E. rewrite E in Hx0. now injection Hx0.
  - intros E. rewrite E in Hx. now injection Hx.
  - intros E. rewrite E in Hx1. now injection Hx1.
  - intros y E. rewrite E in Hx0. now injection Hx0.
  - intros y E. rewrite E in Hx. now injection Hx.
  - intros y E. rewrite E in Hx1. now injection Hx1.
  - intros E. rewrite E in Hx2. now injection Hx2.
  - intros y E Hy. rewrite E in Hx2. destruct y; [congruence|].
    now injection Hx2.
Qed.

End Operations.

(** ** Links of the sources panel *)

(** Basic Latin letters folded to lower case. *)
Definition foldAscii (s : jsstring) : jsstring :=
  map (fun c => if (65 <=? c) && (c <=? 90) then c + 32 else c) s.

Lemma matchesLetter_fold (lower c : Z) :
  97 <= lower <= 122 ->
  matchesLetter lower c = true <-> foldAscii [c] = [lower].
Proof.
  intros Hl. unfold matchesLetter, foldAscii. cbn [map].
  destruct ((65 <=? c) && (c <=? 90)) eqn:E.
  - apply andb_true_iff in E as [E1 E2]. apply Z.leb_le in E1, E2.
    rewrite orb_true_iff, !Z.eqb_eq. split.
    + intros [->| ->]; [lia | f_equal; lia].
    + intros H. injection H as H. right. lia.
  - apply andb_false_iff in E.
    rewrite orb_true_iff, !Z.eqb_eq. split.
    + intros [->| ->]; [reflexivity|].
      destruct E as [E|E]; [apply Z.leb_gt in E | apply Z.leb_gt in E]; lia.
    + intros H. injection H as ->. now left.
Qed.

Lemma isLikelyUrl_true_inv (s : jsstring) :
  isLikelyUrl s = true ->
  exists scheme c rest,
    s = scheme ++ str "://" ++ c :: rest
    /\ (foldAscii scheme = str "http" \/ foldAscii scheme = str "https")
    /\ isWhiteSpace c = false.
Proof.
  destruct s as [|h [|t1 [|t2 [|p rest]]]]; try discriminate.
  cbn [isLikelyUrl]. intros H.
  apply andb_true_iff in H as [H Hrest].
  apply andb_true_iff in H as [H Hp].
  apply andb_true_iff in H as [Hh Ht2].
  apply andb_true_iff in Hh as [Hh Ht1].
  apply matchesLetter_fold in Hh; [|lia].
  apply matchesLetter_fold in Ht1; [|lia].
  apply matchesLetter_fold in Ht2; [|lia].
  apply matchesLetter_fold in Hp; [|lia].
  cbn in Hh, Ht1, Ht2, Hp.
  injection Hh as Hh. injection Ht1 as Ht1. injection Ht2 as Ht2.
  injection Hp as Hp.
  apply orb_true_iff in Hrest as [Hs|Hs].
  + destruct rest as [|s' [|a [|b [|c [|d rest]]]]]; try discriminate;
      try (apply andb_true_iff in Hs as [_ Hs]; discriminate).
    apply andb_true_iff in Hs as [Hs' Hs]. cbn [matchesSlashes] in Hs.
    apply andb_true_iff in Hs as [Hs Hd].
    apply andb_true_iff in Hs as [Hs Hc].
    apply andb_true_iff in Hs as [Ha Hb].
    apply Z.eqb_eq in Ha, Hb, Hc. subst a b c.
    apply negb_true_iff in Hd.
    apply matchesLetter_fold in Hs'; [|lia]. cbn in Hs'. injection Hs' as Hs'.
    exists [h; t1; t2; p; s'], d, rest. split; [reflexivity|].
    split; [right; cbn; congruence | exact Hd].
  + destruct rest as [|a [|b [|c [|d rest]]]]; try discriminate.
    cbn [matchesSlashes] in Hs.
    apply andb_true_iff in Hs as [Hs Hd].
    apply andb_true_iff in Hs as [Hs Hc].
    apply andb_true_iff in Hs as [Ha Hb].
    apply Z.eqb_eq in Ha, Hb, Hc. subst a b c.
    apply negb_true_iff in Hd.
    exists [h; t1; t2; p], d, rest. split; [reflexivity|].
    split; [left; cbn; congruence | exact Hd].
Qed.

(** [isLikelyUrl] accepts exactly the strings that begin with [http://] or
    [https://], in any mix of upper and lower case, followed by a character
    that is not white space.  The empty string, a bare scheme and any other
    scheme are refused. *)
Theorem isLikelyUrl_iff (s : jsstring) :
  isLikelyUrl s = true <->
  exists scheme c rest,
    s = scheme ++ str "://" ++ c :: rest
    /\ (foldAscii scheme = str "http" \/ foldAscii scheme = str "https")
    /\ isWhiteSpace c = false.
Proof.
  split.
  - apply isLikelyUrl_true_inv.
  - intros (scheme & c & rest & -> & Hscheme & Hc).
    destruct Hscheme as [Hscheme|Hscheme].
    + destruct scheme as [|h [|t1 [|t2 [|p [|x scheme]]]]]; try discriminate.
      cbn in Hscheme. injection Hscheme as Hh Ht1 Ht2 Hp.
      cbn [app str list_ascii_of_string map isLikelyUrl].
      rewrite (proj2 (matchesLetter_fold 104 h ltac:(lia))) by (cbn; congruence).
      rewrite (proj2 (matchesLetter_fold 116 t1 ltac:(lia))) by (cbn; congruence).
      rewrite (proj2 (matchesLetter_fold 116 t2 ltac:(lia))) by (cbn; congruence).
      rewrite (proj2 (matchesLetter_fold 112 p ltac:(lia))) by (cbn; congruence).
      cbn. now rewrite Hc.
    + destruct scheme as [|h [|t1 [|t2 [|p [|s' [|x scheme]]]]]]; try discriminate.
      cbn in Hscheme. injection Hscheme as Hh Ht1 Ht2 Hp Hs'.
      cbn [app str list_ascii_of_string map isLikelyUrl].
      rewrite (proj2 (matchesLetter_fold 104 h ltac:(lia))) by (cbn; congruence).
      rewrite (proj2 (matchesLetter_fold 116 t1 ltac:(lia))) by (cbn; congruence).
      rewrite (proj2 (matchesLetter_fold 116 t2 ltac:(lia))) by (cbn; congruence).
      rewrite (proj2 (matchesLetter_fold 112 p ltac:(lia))) by (cbn; congruence).
      rewrite (proj2 (matchesLetter_fold 115 s' ltac:(lia))) by (cbn; congruence).
      cbn. now rewrite Hc.
Qed.

(** ** Access to the built-in documents *)

(** What a role may read within a scope. *)
Definition mayRead (role : UserRole) (scope : Scope) (level : AccessLevel) : Prop :=
  (role = admin \/ level = public)
  /\ match scope with
     | scopeInternal => level = internal
     | scopeWeb => level = public
     | scopeHybrid => True
     end.

Lemma isPublicDoc_true (doc : Doc.t) :
  isPublicDoc doc = true <-> Doc.accessLevel doc = public.
Proof. unfold isPublicDoc. destruct (Doc.accessLevel doc); split; congruence. Qed.

Lemma isInternalDoc_true (doc : Doc.t) :
  isInternalDoc doc = true <-> Doc.accessLevel doc = internal.
Proof. unfold isInternalDoc. destruct (Doc.accessLevel doc); split; congruence. Qed.

Lemma In_filterAccessibleDocs (role : UserRole) (scope : Scope)
    (docs : list Doc.t) (doc : Doc.t) :
  In doc (filterAccessibleDocs role scope docs)
  <-> In doc docs /\ mayRead role scope (Doc.accessLevel doc).
Proof.
  unfold filterAccessibleDocs, mayRead.
  destruct role, scope; rewrite ?filter_In, ?isPublicDoc_true,
    ?isInternalDoc_true; intuition congruence.
Qed.

(** [filterAccessibleDocs] returns exactly the given documents the role may
    read within the scope: an employee is never handed an internal document,
    and an employee who asks within the internal scope is handed none. *)
Theorem filterAccessibleDocs_iff (role : UserRole) (scope : Scope)
    (docs : list Doc.t) :
  (forall doc, In doc (filterAccessibleDocs role scope docs)
               <-> In doc docs /\ mayRead role scope (Doc.accessLevel doc))
  /\ (forall doc, role = employee ->
        In doc (filterAccessibleDocs role scope docs) ->
        Doc.accessLevel doc = public)
  /\ (role = employee -> scope = scopeInternal ->
      filterAccessibleDocs role scope docs = []).
Proof.
  split; [apply In_filterAccessibleDocs|]. split.
  - intros doc -> H. apply In_filterAccessibleDocs in H.
    destruct H as (_ & [H|H] & _); [discriminate | exact H].
  - intros -> ->. unfold filterAccessibleDocs.
    induction docs as [|doc docs IH]; [reflexivity|].
    cbn [filter]. destruct (isPublicDoc doc) eqn:Ep; [|exact IH].
    cbn [filter]. destruct (isInternalDoc doc) eqn:Ei; [|exact IH].
    apply isPublicDoc_true in Ep. apply isInternalDoc_true in Ei. congruence.
Qed.

Lemma In_firstn {A} (n : nat) (xs : list A) (x : A) :
  In x (firstn n xs) -> In x xs.
Proof.
  intros H. rewrite <- (firstn_skipn n xs). apply in_or_app. now left.
Qed.

(** [performRAG] hands back at most three documents of the knowledge base,
    each one readable by the role within the scope and matching the query
    in its title, content or snippet. *)
Theorem performRAG_results (role : UserRole) (scope : Scope) (query : jsstring) :
  (List.length (performRAG role scope query) <= 3)%nat
  /\ Forall (fun doc =>
               In doc KNOWLEDGE_BASE
               /\ mayRead role scope (Doc.accessLevel doc)
               /\ docMatches (toLowerCase query) doc = true)
            (performRAG role scope query).
Proof.
  unfold performRAG. split; [apply firstn_le_length|].
  apply Forall_forall. intros doc Hdoc.
  apply In_firstn in Hdoc. apply filter_In in Hdoc as [Hdoc Hmatch].
  apply In_filterAccessibleDocs in Hdoc. tauto.
Qed.

(** ** Agent controls *)

(** The industry agent is web-only and never strict. *)
Definition industryWebOnly (st : Controls.t) : Prop :=
  Controls.activeAgent st = str "industry" ->
  Controls.scope st = scopeWeb /\ Controls.strictCitations st = false.

Lemma controlStep_industryWebOnly (st : Controls.t) (e : ControlEvent) :
  industryWebOnly st -> industryWebOnly (controlStep st e).
Proof.
  unfold industryWebOnly. intros Hst.
  destruct e as [next|s|v]; cbn [controlStep].
  - unfold onAgentChange.
    destruct (jsstring_eqb next "industry") eqn:E; cbn; [tauto|].
    intros ->. discriminate.
  - unfold onScopeChange.
    destruct (jsstring_eqb (Controls.activeAgent st) "industry") eqn:E.
    + apply jsstring_eqb_eq in E.
      destruct s; cbn; intros H; destruct (Hst E); auto.
    + cbn. intros H. rewrite H in E. discriminate.
  - unfold onStrictCitationsChange.
    destruct (jsstring_eqb (Controls.activeAgent st) "industry") eqn:E;
      [exact Hst|].
    cbn. intros H. rewrite H in E. discriminate.
Qed.

Lemma reachable_industryWebOnly (events : list ControlEvent) (st : Controls.t) :
  industryWebOnly st -> industryWebOnly (fold_left controlStep events st).
Proof.
  revert st; induction events as [|e events IH]; intros st Hst; [exact Hst|].
  cbn [fold_left]. apply IH. now apply controlStep_industryWebOnly.
Qed.

(** Whatever the user does with the agent selector, the scope buttons and
    the strict-citations switch, while the industry agent is selected the
    scope is [web] and strict citations are off. *)
Theorem controls_industry_web_only (events : list ControlEvent) :
  industryWebOnly (fold_left controlStep events initialControls).
Proof.
  apply reachable_industryWebOnly. intros H. discriminate.
Qed.

(** Outside the industry agent the controls are free: the scope and the
    switch take any value asked for, and only the agent selector changes
    the agent. *)
Lemma controls_free_outside_industry (st : Controls.t) (s : Scope) (v : bool) :
  Controls.activeAgent st <> str "industry" ->
  Controls.scope (onScopeChange st s) = s
  /\ Controls.strictCitations (onStrictCitationsChange st v) = v
  /\ Controls.activeAgent (onScopeChange st s) = Controls.activeAgent st
  /\ Controls.activeAgent (onStrictCitationsChange st v) = Controls.activeAgent st.
Proof.
  intros H. unfold onScopeChange, onStrictCitationsChange.
  destruct (jsstring_eqb (Controls.activeAgent st) "industry") eqn:E.
  - apply jsstring_eqb_eq in E. contradiction.
  - repeat split.
Qed.

(** ** Decimal numerals *)

Definition isDigit (c : Z) : bool := (48 <=? c) && (c <=? 57).

Lemma digits_uint (d : Decimal.uint) :
  forallb isDigit (str (NilEmpty.string_of_uint d)) = true.
Proof. induction d; simpl; auto. Qed.

Lemma digits_decimal (n : N) : forallb isDigit (decimal n) = true.
Proof.
  unfold decimal, NilZero.string_of_uint.
  destruct (N.to_uint n); try reflexivity; apply digits_uint.
Qed.

Lemma str_inj (a b : string) : str a = str b -> a = b.
Proof.
  revert b; induction a as [|x a IH]; intros [|y b] H; try discriminate;
    [reflexivity|].
  cbn in H. injection H as Hxy Hab. f_equal.
  - apply N2Z.inj in Hxy.
    rewrite <- (ascii_N_embedding x), <- (ascii_N_embedding y). now f_equal.
  - now apply IH.
Qed.

Lemma to_uint_nonnil (n : N) : N.to_uint n <> Decimal.Nil.
Proof.
  destruct n as [|p]; [discriminate|]. apply DecimalPos.Unsigned.to_uint_nonnil.
Qed.

Lemma decimal_inj (m n : N) : decimal m = decimal n -> m = n.
Proof.
  unfold decimal. intros H. apply str_inj in H.
  apply DecimalN.Unsigned.to_uint_inj.
  pose proof (NilZero.usu (N.to_uint m) (to_uint_nonnil m)) as Hm.
  pose proof (NilZero.usu (N.to_uint n) (to_uint_nonnil n)) as Hn.
  rewrite H in Hm. congruence.
Qed.

(** A string is cut in one way only at its last dash. *)
Lemma last_dash_unique (a b d1 d2 : jsstring) :
  a ++ 45 :: d1 = b ++ 45 :: d2 ->
  ~ In 45 d1 -> ~ In 45 d2 -> a = b /\ d1 = d2.
Proof.
  revert b; induction a as [|x a IH]; intros [|y b] H H1 H2; cbn in H.
  - injection H as <-. now split.
  - injection H as <- ->. exfalso. apply H1. apply in_or_app. right. now left.
  - injection H as -> <-. exfalso. apply H2. apply in_or_app. right. now left.
  - injection H as <- H. destruct (IH b H H1 H2) as [-> ->]. now split.
Qed.

Lemma decimal_no_dash (n : N) : ~ In 45 (decimal n).
Proof.
  intros H. pose proof (digits_decimal n) as Hd.
  rewrite forallb_forall in Hd. specialize (Hd 45 H). discriminate.
Qed.

(** ** From the backend's sources to the panel *)

Section Panel.
Context {number : Type} {numberOps : JsNumber number}.

(** The keys of the panel's entries differ whenever their positions do:
    the position is what follows the last dash. *)
Theorem stableKey_unique (p q : PanelSource.t) (i j : nat) :
  i <> j -> stableKey p i <> stableKey q j.
Proof.
  unfold stableKey. intros Hij H.
  apply last_dash_unique in H as [_ H]; try apply decimal_no_dash.
  apply decimal_inj in H. lia.
Qed.

(** The link a panel entry opens is empty or the entry's source, and then
    one that begins with [http://] or [https://]: no other scheme is ever
    opened. *)
Theorem openTarget_http (p : PanelSource.t) :
  openTarget p = []
  \/ (openTarget p = PanelSource.source p
      /\ exists scheme rest,
           openTarget p = scheme ++ str "://" ++ rest
           /\ (foldAscii scheme = str "http" \/ foldAscii scheme = str "https")).
Proof.
  unfold openTarget. destruct (isLikelyUrl (PanelSource.source p)) eqn:E;
    [right | now left].
  split; [reflexivity|].
  destruct (isLikelyUrl_true_inv _ E) as (scheme & c & rest & Hs & Hscheme & _).
  exists scheme, (c :: rest). now split.
Qed.

Lemma normalized_rest_lookup (props : list (jsstring * Json number)) (idx : nat)
    (r : Source.t number) (k : jsstring) :
  normalizeSource (Some (JObj props)) idx = Return r ->
  existsb (jsstring_eqb k) normalizedNames = false ->
  lookup k (Source.rest r) = lookup k props.
Proof.
  intros H Hk. apply normalizeSource_Return in H.
  destruct H as (? & ? & ? & ? & ? & ? & ? & _ & _ & _ & _ & _ & _ & _ & ->).
  cbn [Source.rest]. unfold passThrough. cbn [ownProperties].
  apply (lookup_filter
           (fun k' => negb (existsb (jsstring_eqb k') normalizedNames))).
  - now rewrite Hk.
  - intros k' E. apply jsstring_eqb_eq in E. subst k'. now rewrite Hk.
Qed.

Lemma normalized_id_nonempty (s : option (Json number)) (idx : nat)
    (r : Source.t number) :
  normalizeSource s idx = Return r -> Source.id r <> [].
Proof.
  intros H. apply normalizeSource_Return in H.
  destruct H as (id0 & ? & ? & ? & ? & ? & ? & _ & _ & _ & _ & _ & _ & _ & ->).
  cbn [Source.id]. destruct (isEmpty (trim id0)) eqn:E.
  - apply syntheticId_nonempty.
  - intros C. rewrite C in E. discriminate.
Qed.

Lemma orString_nonempty (a b : jsstring) : a <> [] -> orString a b = a.
Proof. unfold orString. now destruct a. Qed.

Lemma panelNormalize_Return (c : Citation.t number) (p : PanelSource.t) :
  panelNormalize c = Return p ->
  exists fullText,
    (if truthy (Some (Citation.fullText c))
     then ToString (Citation.fullText c)
     else Return (orString (Citation.snippet c) [])) = Return fullText
    /\ p = PanelSource.make (orString (Citation.id c) [])
             (orString (Citation.title c) "Source")
             (orString (Citation.section c) [])
             (orString (Citation.source c) [])
             (if strictEqualsString (Some (Citation.accessLevel c)) "public"
              then public else internal)
             (orString (Citation.snippet c) [])
             fullText.
Proof.
  unfold panelNormalize. intros H. inv_bind H. injection H as <-. eauto.
Qed.

Lemma orString_empty (a : jsstring) : orString a [] = a.
Proof. now destruct a. Qed.

(** The access level the panel shows for a raw source object is [public]
    exactly when the object's own [access_level] is the string ["public"]:
    the level [normalizeSource] worked out (from [accessLevel] first, and
    in any letter case) has no part in it. *)
Theorem displayed_accessLevel (props : list (jsstring * Json number)) (idx : nat)
    (r : Source.t number) (p : PanelSource.t) :
  normalizeSource (Some (JObj props)) idx = Return r ->
  panelNormalize (toCitation r) = Return p ->
  (PanelSource.accessLevel p = public
   <-> lookup "access_level" props = Some (JStr "public")).
Proof.
  intros Hr Hp. apply panelNormalize_Return in Hp as (ft & _ & ->).
  cbn [PanelSource.accessLevel toCitation Citation.accessLevel].
  change (sourceGet r "access_level") with (lookup "access_level" (Source.rest r)).
  rewrite (normalized_rest_lookup props idx r "access_level" Hr eq_refl).
  destruct (lookup "access_level" props) as [[| | |raw| |]|];
    try (cbn; split; intros H; discriminate H).
  cbn [orDefault strictEqualsString].
  destruct (jsstring_eqb raw "public") eqn:E.
  - apply jsstring_eqb_eq in E. subst raw. split; reflexivity.
  - split; [discriminate|]. intros H. injection H as ->.
    now rewrite jsstring_eqb_refl in E.
Qed.

(** What the panel shows of a raw source object besides: the normalized
    id, never empty; the normalized title, or ["Source"] in place of an
    empty one; the normalized section, source and snippet; and as full
    text the object's own [full_text] converted to a string when that is
    truthy, otherwise the normalized snippet - never the full text
    [normalizeSource] worked out. *)
Theorem displayed_texts (props : list (jsstring * Json number)) (idx : nat)
    (r : Source.t number) (p : PanelSource.t) :
  normalizeSource (Some (JObj props)) idx = Return r ->
  panelNormalize (toCitation r) = Return p ->
  PanelSource.id p = Source.id r
  /\ PanelSource.id p <> []
  /\ PanelSource.title p
     = (if isEmpty (Source.title r) then str "Source" else Source.title r)
  /\ PanelSource.title p <> []
  /\ PanelSource.section p = Source.section r
  /\ PanelSource.source p = Source.source r
  /\ PanelSource.snippet p = Source.snippet r
  /\ (truthy (lookup "full_text" props) = false ->
      PanelSource.fullText p = Source.snippet r)
  /\ (forall j, lookup "full_text" props = Some j -> truthy (Some j) = true ->
        ToString j = Return (PanelSource.fullText p)).
Proof.
  intros Hr Hp. pose proof (normalized_id_nonempty _ _ _ Hr) as Hid.
  apply panelNormalize_Return in Hp as (ft & Hft & ->).
  cbn [PanelSource.id PanelSource.title PanelSource.section PanelSource.source
       PanelSource.snippet PanelSource.fullText toCitation Citation.id
       Citation.title Citation.section Citation.source Citation.snippet
       Citation.fullText] in *.
  change (sourceGet r "full_text") with (lookup "full_text" (Source.rest r)) in Hft.
  rewrite (normalized_rest_lookup props idx r "full_text" Hr eq_refl) in Hft.
  rewrite !orString_empty.
  split; [reflexivity|]. split; [exact Hid|]. split; [reflexivity|].
  split; [unfold orString; destruct (Source.title r); discriminate|].
  split; [reflexivity|]. split; [reflexivity|]. split; [reflexivity|].
  split.
  - intros Hfalsy.
    destruct (lookup "full_text" props) as [[| | | | |]|]; cbn in Hft, Hfalsy;
      try rewrite Hfalsy in Hft; try discriminate;
      rewrite ?orString_empty in Hft; now injection Hft.
  - intros j Hj Htruthy. rewrite Hj in Hft.
    assert (Hd : orDefault (Some j) (JStr "") = j)
      by (destruct j; try reflexivity; discriminate).
    rewrite Hd, Htruthy in Hft. exact Hft.
Qed.

End Panel.

(** ** Sending a message *)

Section Sending.
Context {number : Type} {numberOps : JsNumber number}.

Lemma lastN_length {A} (n : nat) (xs : list A) :
  List.length (lastN n xs) = Nat.min n (List.length xs).
Proof. unfold lastN. rewrite length_skipn. lia. Qed.

Lemma lastN_snoc {A} (n : nat) (xs : list A) (x : A) :
  (0 < n)%nat -> exists kept, lastN n (xs ++ [x]) = kept ++ [x].
Proof.
  intros Hn. unfold lastN. rewrite length_app. cbn [List.length].
  rewrite skipn_app.
  replace (List.length xs + 1 - n - List.length xs)%nat with 0%nat by lia.
  cbn [skipn]. eauto.
Qed.

(** The history sent along with a question holds at most six turns, the
    last six of the conversation in their order, and ends with the
    question itself as a user turn. *)
Theorem historyForBackend_shape (messages : list (Message.t number))
    (userMessage : Message.t number) :
  List.length (historyForBackend messages userMessage)
  = Nat.min 6 (S (List.length messages))
  /\ last (historyForBackend messages userMessage)
          (ChatHistoryMessage.make user [])
     = ChatHistoryMessage.make (Message.role userMessage)
         (Message.content userMessage)
  /\ exists older,
       map (fun m => ChatHistoryMessage.make (Message.role m) (Message.content m))
           (messages ++ [userMessage])
       = older ++ historyForBackend messages userMessage.
Proof.
  unfold historyForBackend. split; [|split].
  - rewrite length_map, lastN_length, length_app. cbn [List.length].
    f_equal. lia.
  - destruct (lastN_snoc 6 messages userMessage ltac:(lia)) as [kept ->].
    rewrite map_app. cbn [map]. apply last_last.
  - exists (map (fun m => ChatHistoryMessage.make (Message.role m) (Message.content m))
                (firstn (List.length (messages ++ [userMessage]) - 6)
                        (messages ++ [userMessage]))).
    unfold lastN. rewrite <- map_app. now rewrite firstn_skipn.
Qed.

Lemma sendStart_Ignored (controls : Controls.t) (st : Chat.t number)
    (e : SendTrigger) (now : nat -> N) :
  sendStart controls st e now = Ignored
  <-> messageTextOf st e = [] \/ Chat.isLoading st = true.
Proof.
  unfold sendStart.
  destruct (isEmpty (messageTextOf st e)) eqn:Eempty.
  - apply isEmpty_true in Eempty. cbn. tauto.
  - destruct (Chat.isLoading st) eqn:Eload; cbn.
    + tauto.
    + destruct (_ && _); split; try discriminate.
      all: intros [H|H]; [rewrite H in Eempty|]; discriminate.
Qed.

(** The handler does nothing at all exactly when the text is empty or an
    answer is still awaited; a form whose input is white space only is
    among the first. *)
Theorem sendStart_ignored_iff (controls : Controls.t) (st : Chat.t number)
    (e : SendTrigger) (now : nat -> N) :
  (sendStart controls st e now = Ignored
   <-> messageTextOf st e = [] \/ Chat.isLoading st = true)
  /\ (forallb isWhiteSpace (Chat.input st) = true ->
      sendStart controls st FormSubmit now = Ignored).
Proof.
  split; [apply sendStart_Ignored|].
  intros Hws. apply sendStart_Ignored. left.
  cbn [messageTextOf]. now apply trim_whitespace.
Qed.

Lemma sendStart_Asked (controls : Controls.t) (st st' : Chat.t number)
    (e : SendTrigger) (now : nat -> N) (params : ChatParams.t) :
  sendStart controls st e now = Asked st' params ->
  messageTextOf st e <> []
  /\ Chat.isLoading st = false
  /\ st' = Chat.make
             (Chat.messages st
              ++ [Message.make (decimal (now 0%nat)) user (messageTextOf st e)
                    None None (now 1%nat)])
             [] true (Chat.currentSources st)
  /\ params = ChatParams.make (messageTextOf st e) (Controls.scope controls)
                (Controls.activeAgent controls)
                (Controls.strictCitations controls)
                (historyForBackend (Chat.messages st)
                   (Message.make (decimal (now 0%nat)) user
                      (messageTextOf st e) None None (now 1%nat))).
Proof.
  unfold sendStart.
  destruct (isEmpty (messageTextOf st e)) eqn:Eempty; [discriminate|].
  destruct (Chat.isLoading st) eqn:Eload; [discriminate|]. cbn [orb].
  destruct (_ && _); [discriminate|].
  intros H. injection H as <- <-.
  repeat split. intros C. rewrite C in Eempty. discriminate.
Qed.

(** When the handler does ask the backend: the question is the text, not
    empty; no answer was being awaited and now one is; the input is
    cleared; the user's turn is appended to the messages; the sources stay;
    the request carries the scope, agent and strictness of the controls and
    a history of at most six turns that ends with the question. *)
Theorem sendStart_asked (controls : Controls.t) (st st' : Chat.t number)
    (e : SendTrigger) (now : nat -> N) (params : ChatParams.t) :
  sendStart controls st e now = Asked st' params ->
  ChatParams.question params = messageTextOf st e
  /\ ChatParams.question params <> []
  /\ Chat.isLoading st = false
  /\ Chat.isLoading st' = true
  /\ Chat.input st' = []
  /\ Chat.currentSources st' = Chat.currentSources st
  /\ (exists u, Chat.messages st' = Chat.messages st ++ [u]
        /\ Message.role u = user
        /\ Message.content u = ChatParams.question params)
  /\ ChatParams.scope params = Controls.scope controls
  /\ ChatParams.agent params = Controls.activeAgent controls
  /\ ChatParams.strictCitations params = Controls.strictCitations controls
  /\ (List.length (ChatParams.history params) <= 6)%nat
  /\ last (ChatParams.history params) (ChatHistoryMessage.make assistant [])
     = ChatHistoryMessage.make user (ChatParams.question params).
Proof.
  intros H. apply sendStart_Asked in H as (Htext & Hload & -> & ->).
  cbn [ChatParams.question ChatParams.scope ChatParams.agent
       ChatParams.strictCitations ChatParams.history Chat.isLoading Chat.input
       Chat.currentSources Chat.messages].
  repeat split; try assumption.
  - eexists. split; [reflexivity|]. split; reflexivity.
  - unfold historyForBackend. rewrite length_map, lastN_length. lia.
  - unfold historyForBackend.
    destruct (lastN_snoc 6 (Chat.messages st)
                (Message.make (decimal (now 0%nat)) user (messageTextOf st e)
                   None None (now 1%nat)) ltac:(lia)) as [kept ->].
    rewrite map_app. cbn [map]. apply last_last.
Qed.

(** A question put to the industry agent always goes out with the scope
    [web] and without strict citations, whatever was done with the controls
    before. *)
Theorem industry_question_is_web_only (events : list ControlEvent)
    (st st' : Chat.t number) (e : SendTrigger) (now : nat -> N)
    (params : ChatParams.t) :
  sendStart (fold_left controlStep events initialControls) st e now
  = Asked st' params ->
  ChatParams.agent params = str "industry" ->
  ChatParams.scope params = scopeWeb
  /\ ChatParams.strictCitations params = false.
Proof.
  intros H Hagent. apply sendStart_Asked in H as (_ & _ & _ & ->).
  cbn [ChatParams.agent ChatParams.scope ChatParams.strictCitations] in *.
  apply (reachable_industryWebOnly events initialControls); [|exact Hagent].
  intros C. discriminate.
Qed.

(** When the answer is in, or the call has failed: no answer is awaited
    any more, the input is left alone, and one assistant turn is appended.
    After a failure the sources are cleared and the turn carries none;
    after an answer the turn holds the answer and one citation per source,
    and these citations become the current sources. *)
Theorem sendFinish_outcome (st : Chat.t number)
    (outcome : Completion (ChatResponse.t number)) (now : nat -> N) :
  Chat.isLoading (sendFinish st outcome now) = false
  /\ Chat.input (sendFinish st outcome now) = Chat.input st
  /\ exists m,
       Chat.messages (sendFinish st outcome now) = Chat.messages st ++ [m]
       /\ Message.role m = assistant
       /\ (forall e, outcome = Throw e ->
             Chat.currentSources (sendFinish st outcome now) = []
             /\ Message.citations m = None)
       /\ (forall data, outcome = Return data ->
             Message.content m = ChatResponse.answer data
             /\ Message.citations m
                = Some (Chat.currentSources (sendFinish st outcome now))
             /\ Message.followUpSuggestions m
                = Some (ChatResponse.follow_up_questions data)
             /\ map Citation.id (Chat.currentSources (sendFinish st outcome now))
                = map Source.id (ChatResponse.sources data)).
Proof.
  destruct outcome as [data|err]; cbn [sendFinish Chat.isLoading Chat.input
    Chat.messages Chat.currentSources].
  - split; [reflexivity|]. split; [reflexivity|]. eexists.
    split; [reflexivity|]. split; [reflexivity|]. split; [discriminate|].
    intros data' H. injection H as <-. cbn.
    repeat split. unfold mapBackendSourcesToCitations.
    rewrite map_map. reflexivity.
  - split; [reflexivity|]. split; [reflexivity|]. eexists.
    split; [reflexivity|]. split; [reflexivity|]. split; [|discriminate].
    intros e _. split; reflexivity.
Qed.

(** The words [show sources], in any letter case and with white space
    around them, are answered on the spot when there are current sources:
    no request is made, the sources and the awaiting flag stay as they are,
    the input is cleared, and the user's turn and an assistant turn that
    cites the current sources are appended. *)
Theorem sendStart_shown_sources (controls : Controls.t) (st st' : Chat.t number)
    (e : SendTrigger) (now : nat -> N) :
  sendStart controls st e now = ShownSources st' ->
  trim (toLowerCase (messageTextOf st e)) = str "show sources"
  /\ Chat.currentSources st <> []
  /\ Chat.currentSources st' = Chat.currentSources st
  /\ Chat.isLoading st' = false
  /\ Chat.input st' = []
  /\ exists u a,
       Chat.messages st' = Chat.messages st ++ [u; a]
       /\ Message.role u = user
       /\ Message.content u = messageTextOf st e
       /\ Message.role a = assistant
       /\ Message.citations a = Some (Chat.currentSources st).
Proof.
  unfold sendStart.
  destruct (isEmpty (messageTextOf st e)); [discriminate|].
  destruct (Chat.isLoading st) eqn:Eload; [discriminate|]. cbn [orb].
  destruct (jsstring_eqb _ _) eqn:Ewords; [|discriminate]. cbn [andb].
  destruct (Chat.currentSources st) as [|c cs] eqn:Esources; [discriminate|].
  cbn [List.length Nat.eqb negb]. intros H. injection H as <-.
  cbn [Chat.currentSources Chat.isLoading Chat.input Chat.messages].
  apply jsstring_eqb_eq in Ewords.
  split; [exact Ewords|]. split; [discriminate|].
  split; [reflexivity|]. split; [reflexivity|]. split; [reflexivity|].
  do 2 eexists. split; [reflexivity|]. repeat split.
Qed.

End Sending.

(** * The callers on concrete inputs *)

Definition clock (i : nat) : N := 1700000000000 + N.of_nat i.

Definition welcome : Message.t Z :=
  Message.make "1" assistant "Welcome to the Internal Knowledge Agent." None
    (Some [str "What are the API docs?"]) 1700000000000.

Definition typing : Chat.t Z := Chat.make [welcome] "  What is escrow? " false [].

Definition camelCaseSource : list (jsstring * Json Z) :=
  properties [("id", JStr "kb-7"); ("accessLevel", JStr "public");
              ("snippet", JStr "Escrow basics"); ("fullText", JStr "Escrow, in full")].

Definition shownCitation : Citation.t Z :=
  Citation.make "kb-7" "Source" [] [] (JStr "internal") "Escrow basics" (JStr "").

Definition answered : Chat.t Z :=
  Chat.make [welcome] [] false [shownCitation].

Definition afterIndustry : list ControlEvent :=
  [AgentChange "industry"; ScopeChange scopeInternal; StrictCitationsChange true].

Lemma sessionMessagesUrl_one_segment_witness :
  sessionMessagesUrl "http://h" "a/b?c"
  = Some (str "http://h/api/chat/sessions/a%2Fb%3Fc")
  /\ exists segment,
       str "http://h/api/chat/sessions/a%2Fb%3Fc"
       = str "http://h" ++ str "/api/chat/sessions/" ++ segment
       /\ Forall (fun c => c <> 47 /\ c <> 63 /\ c <> 35 /\ c <> 38) segment.
Proof.
  split; [reflexivity|].
  apply (sessionMessagesUrl_one_segment "http://h" "a/b?c");
    [repeat constructor; lia | reflexivity].
Defined.

Lemma operations_reject_non_ok_witness :
  ok (received (number := Z) 503 "down" None) = false
  /\ listChatSessions (received (number := Z) 503 "down" None)
     = Throw (Error "HTTP 503")
  /\ askKnowledgeAgent (received (number := Z) 503 "down" None)
     = Throw (Error "HTTP 503").
Proof.
  split; [reflexivity|].
  destruct (operations_reject_non_ok (received (number := Z) 503 "down" None)
              eq_refl) as (Hask & Hlist & _).
  split; [exact Hlist | exact Hask].
Defined.


Lemma listChatSessions_entries_witness :
  exists sessions,
    listChatSessions
      (success (JArr [object [("id", JNum 7); ("title", JNull)];
                      object [("title", JStr " Rates "); ("preview", JStr " p ")]]))
    = Return sessions
    /\ map ChatSession.title sessions = [str "New chat"; str " Rates "]
    /\ map ChatSession.preview sessions = [[]; str " p "]
    /\ Forall2 (fun s cs =>
                  (isNullish (Some s ?. "title") = true ->
                   ChatSession.title cs = str "New chat")
                  /\ (forall x, Some s ?. "preview" = Some (JStr x) ->
                        ChatSession.preview cs = x))
               [object [("id", JNum 7); ("title", JNull)];
                object [("title", JStr " Rates "); ("preview", JStr " p ")]]
               sessions.
Proof.
  eexists. split; [reflexivity|]. split; [reflexivity|]. split; [reflexivity|].
  eapply Forall2_impl;
    [|exact (listChatSessions_entries
               (success (JArr [object [("id", JNum 7); ("title", JNull)];
                               object [("title", JStr " Rates ");
                                       ("preview", JStr " p ")]]))
               _ _ (successBody_success _) eq_refl)].
  intros s cs H. split; [exact (proj1 H)|].
  exact (proj1 (proj2 (proj2 (proj2 (proj2 (proj2 H)))))).
Defined.

Lemma stableKey_unique_witness :
  (1 <> 11)%nat
  /\ stableKey (PanelSource.make "a-1" "T" [] [] internal [] []) 1
     <> stableKey (PanelSource.make "a" "T" [] [] internal [] []) 11.
Proof.
  split; [discriminate|].
  apply stableKey_unique. discriminate.
Defined.

Lemma displayed_accessLevel_witness :
  exists r p,
    normalizeSource (Some (JObj camelCaseSource)) 0 = Return r
    /\ panelNormalize (toCitation r) = Return p
    /\ Source.accessLevel r = public
    /\ PanelSource.accessLevel p = internal
    /\ lookup "access_level" camelCaseSource <> Some (JStr "public").
Proof.
  do 2 eexists. split; [reflexivity|]. split; [reflexivity|].
  split; [reflexivity|]. split; [reflexivity|].
  intros H.
  apply (displayed_accessLevel camelCaseSource 0 _ _ eq_refl eq_refl) in H.
  discriminate.
Defined.

Lemma displayed_texts_witness :
  exists r p,
    normalizeSource (Some (JObj camelCaseSource)) 0 = Return r
    /\ panelNormalize (toCitation r) = Return p
    /\ Source.fullText r = str "Escrow, in full"
    /\ PanelSource.fullText p = str "Escrow basics".
Proof.
  do 2 eexists. split; [reflexivity|]. split; [reflexivity|].
  split; [reflexivity|].
  destruct (displayed_texts camelCaseSource 0 _ _ eq_refl eq_refl)
    as (_ & _ & _ & _ & _ & _ & _ & Hfalsy & _).
  exact (Hfalsy eq_refl).
Defined.

Lemma controls_industry_web_only_witness :
  Controls.activeAgent (fold_left controlStep afterIndustry initialControls)
  = str "industry"
  /\ Controls.scope (fold_left controlStep afterIndustry initialControls)
     = scopeWeb
  /\ Controls.strictCitations
       (fold_left controlStep afterIndustry initialControls) = false.
Proof.
  split; [reflexivity|].
  exact (controls_industry_web_only afterIndustry eq_refl).
Defined.

Lemma sendStart_asked_witness :
  exists st' params,
    sendStart initialControls typing FormSubmit clock = Asked st' params
    /\ ChatParams.question params = str "What is escrow?"
    /\ Chat.isLoading st' = true
    /\ (List.length (ChatParams.history params) <= 6)%nat.
Proof.
  do 2 eexists. split; [reflexivity|].
  destruct (sendStart_asked initialControls typing _ FormSubmit clock _ eq_refl)
    as (Hq & _ & _ & Hload & _ & _ & _ & _ & _ & _ & Hlen & _).
  split; [exact Hq|]. split; [exact Hload | exact Hlen].
Defined.

Lemma industry_question_is_web_only_witness :
  exists st' params,
    sendStart (fold_left controlStep afterIndustry initialControls) typing
      (Suggestion "Rates today?") clock = Asked st' params
    /\ ChatParams.agent params = str "industry"
    /\ ChatParams.scope params = scopeWeb
    /\ ChatParams.strictCitations params = false.
Proof.
  do 2 eexists. split; [reflexivity|]. split; [reflexivity|].
  exact (industry_question_is_web_only afterIndustry typing _
           (Suggestion "Rates today?") clock _ eq_refl eq_refl).
Defined.

Lemma sendStart_shown_sources_witness :
  exists st',
    sendStart initialControls answered (Suggestion " Show Sources ") clock
    = ShownSources st'
    /\ Chat.currentSources st' = [shownCitation]
    /\ List.length (Chat.messages st') = 3%nat.
Proof.
  eexists. split; [reflexivity|].
  destruct (sendStart_shown_sources initialControls answered _
              (Suggestion " Show Sources ") clock eq_refl)
    as (_ & _ & Hsources & _).
  split; [exact Hsources | reflexivity].
Defined.
